(** * The behavioural event segmenter of NHP-BIDS

    A shallow embedding of [process_events] from
    [code/timeevents/curvetracing.py], and the properties of it that the
    specification states.

    Conventions of the embedding.
    - A cell of one of the text columns of the event log ([task], [event],
      [info]) is a Python [str], or the float NaN that [pandas.read_table]
      puts in place of an [n/a] cell: type [cell].  Strings are ASCII.
    - Times ([time_s], [record_time_s], the sampling period [TR]) are
      floats in the source; here they are exact rationals ([Q]), so
      rounding of the float operations is not part of the model.
    - Python exceptions are the constructors of [error]; a computation
      that may raise returns a [result].
    - [split_ev], a dict from condition names to lists of events, is a
      [gmap string (list Event.t)]; indexing it at a missing key raises
      [KeyError], as in Python.
    - The last step of the source wraps each list of records in a
      [pandas.DataFrame] of dtype float; the model stops at the lists of
      records. *)

From Stdlib Require Import ZArith QArith Qround Lqa String Ascii List Lia Bool.
From stdpp Require Import base option gmap strings list fin_maps.

Local Open Scope string_scope.
Local Open Scope list_scope.

(** ** Python values and exceptions *)

Inductive cell : Type :=
| NaN
| Str (s : string).

(** [c == s] for a cell [c] and a string literal [s]: NaN equals nothing. *)
Definition cell_is (c : cell) (s : string) : bool :=
  match c with
  | Str x => String.eqb x s
  | NaN => false
  end.

(** [v == s] for a variable that holds [None] or a cell. *)
Definition var_is (v : option cell) (s : string) : bool :=
  match v with
  | Some c => cell_is c s
  | None => false
  end.

(** ['%s' % c]. *)
Definition str_of_cell (c : cell) : string :=
  match c with
  | Str x => x
  | NaN => "nan"
  end.

(** ['%s' % v] for a variable that holds [None] or a cell. *)
Definition str_of_var (v : option cell) : string :=
  match v with
  | Some c => str_of_cell c
  | None => "None"
  end.

Definition lower_ascii (c : ascii) : ascii :=
  let n := nat_of_ascii c in
  if Nat.leb 65 n && Nat.leb n 90 then ascii_of_nat (n + 32) else c.

(** [s.lower()] on ASCII strings. *)
Fixpoint lower (s : string) : string :=
  match s with
  | EmptyString => EmptyString
  | String c s' => String (lower_ascii c) (lower s')
  end.

Inductive error : Type :=
| IndexError
| AssertionError (msg : option string)
| TypeError
| KeyError (key : string)
| AttributeError
| ZeroDivisionError.

Inductive result (A : Type) : Type :=
| Ok (a : A)
| Raise (e : error).

Arguments Ok {A} a.
Arguments Raise {A} e.

Definition bind {A B : Type} (r : result A) (k : A -> result B) : result B :=
  match r with
  | Ok a => k a
  | Raise e => Raise e
  end.

Notation "x <- r ;; k" := (bind r (fun x => k))
  (at level 100, r at next level, right associativity).

(** The computation returned a value. *)
Definition returns {A : Type} (r : result A) : bool :=
  match r with
  | Ok _ => true
  | Raise _ => false
  end.

(** [assert b, msg]. *)
Definition py_assert (b : bool) (msg : option string) : result unit :=
  if b then Ok tt else Raise (AssertionError msg).

Definition Qltb (a b : Q) : bool := negb (Qle_bool b a).

(** [min(a, b)] of Python: the first argument unless the second is
    strictly smaller. *)
Definition py_min (a b : Q) : Q := if Qltb b a then b else a.

(** [int(q)]: truncation toward zero. *)
Definition py_int (q : Q) : Z := Z.quot (Qnum q) (Z.pos (Qden q)).

(** ** The event log *)

Record row : Type := mkRow {
  task : cell;
  event : cell;
  info : cell;
  time_s : Q;
  record_time_s : Q
}.

(** The amplitude of an output event: a number, or the [info] cell of a
    reward row. *)
Inductive amp : Type :=
| AmpNum (q : Q)
| AmpInfo (c : cell).

Module Event.

Record t : Type := mk {
  time_s : option Q;
  dur_s : Q;
  event_num : Z;
  amplitude : amp
}.

(** [Event.__init__]; [stop_s - start_s] raises [TypeError] when
    [start_s] is [None]. *)
Definition init (start_s : option Q) (stop_s : option Q) (event_num : Z)
    (dur_s : option Q) (amplitude : amp) : result t :=
  match dur_s with
  | Some d => Ok (mk start_s d event_num amplitude)
  | None =>
      match stop_s with
      | Some e =>
          match start_s with
          | Some s => Ok (mk start_s (e - s)%Q event_num amplitude)
          | None => Raise TypeError
          end
      | None => Ok (mk start_s 0%Q event_num amplitude)
      end
  end.

(** [Event(start_s, stop_s)]. *)
Definition span (start_s : option Q) (stop_s : Q) : result t :=
  init start_s (Some stop_s) 1 None (AmpNum 1).

(** [Event(start_s, amplitude=a)]. *)
Definition instant (start_s : Q) (a : amp) : result t :=
  init (Some start_s) None 1 None a.

End Event.

(** ** The running state of the scan *)

Record state : Type := mkState {
  split_ev : gmap string (list Event.t);
  last_correct_s : Q;
  curve_target : option cell;
  curve_stim_on : option Q;
  curve_response : option cell;
  curve_switched : bool;
  fixation_stim_on : option Q;
  response_cues_on : option Q;
  curr_state : option cell;
  began_fixation : option Q;
  has_ManualRewardField : bool
}.

Definition set_split_ev (v : gmap string (list Event.t)) (st : state) : state :=
  {| split_ev := v; last_correct_s := last_correct_s st;
     curve_target := curve_target st; curve_stim_on := curve_stim_on st;
     curve_response := curve_response st;
     curve_switched := curve_switched st;
     fixation_stim_on := fixation_stim_on st;
     response_cues_on := response_cues_on st; curr_state := curr_state st;
     began_fixation := began_fixation st;
     has_ManualRewardField := has_ManualRewardField st |}.

Definition set_last_correct_s (v : Q) (st : state) : state :=
  {| split_ev := split_ev st; last_correct_s := v;
     curve_target := curve_target st; curve_stim_on := curve_stim_on st;
     curve_response := curve_response st;
     curve_switched := curve_switched st;
     fixation_stim_on := fixation_stim_on st;
     response_cues_on := response_cues_on st; curr_state := curr_state st;
     began_fixation := began_fixation st;
     has_ManualRewardField := has_ManualRewardField st |}.

Definition set_curve_target (v : option cell) (st : state) : state :=
  {| split_ev := split_ev st; last_correct_s := last_correct_s st;
     curve_target := v; curve_stim_on := curve_stim_on st;
     curve_response := curve_response st;
     curve_switched := curve_switched st;
     fixation_stim_on := fixation_stim_on st;
     response_cues_on := response_cues_on st; curr_state := curr_state st;
     began_fixation := began_fixation st;
     has_ManualRewardField := has_ManualRewardField st |}.

Definition set_curve_stim_on (v : option Q) (st : state) : state :=
  {| split_ev := split_ev st; last_correct_s := last_correct_s st;
     curve_target := curve_target st; curve_stim_on := v;
     curve_response := curve_response st;
     curve_switched := curve_switched st;
     fixation_stim_on := fixation_stim_on st;
     response_cues_on := response_cues_on st; curr_state := curr_state st;
     began_fixation := began_fixation st;
     has_ManualRewardField := has_ManualRewardField st |}.

Definition set_curve_response (v : option cell) (st : state) : state :=
  {| split_ev := split_ev st; last_correct_s := last_correct_s st;
     curve_target := curve_target st; curve_stim_on := curve_stim_on st;
     curve_response := v; curve_switched := curve_switched st;
     fixation_stim_on := fixation_stim_on st;
     response_cues_on := response_cues_on st; curr_state := curr_state st;
     began_fixation := began_fixation st;
     has_ManualRewardField := has_ManualRewardField st |}.

Definition set_curve_switched (v : bool) (st : state) : state :=
  {| split_ev := split_ev st; last_correct_s := last_correct_s st;
     curve_target := curve_target st; curve_stim_on := curve_stim_on st;
     curve_response := curve_response st; curve_switched := v;
     fixation_stim_on := fixation_stim_on st;
     response_cues_on := response_cues_on st; curr_state := curr_state st;
     began_fixation := began_fixation st;
     has_ManualRewardField := has_ManualRewardField st |}.

Definition set_fixation_stim_on (v : option Q) (st : state) : state :=
  {| split_ev := split_ev st; last_correct_s := last_correct_s st;
     curve_target := curve_target st; curve_stim_on := curve_stim_on st;
     curve_response := curve_response st;
     curve_switched := curve_switched st; fixation_stim_on := v;
     response_cues_on := response_cues_on st; curr_state := curr_state st;
     began_fixation := began_fixation st;
     has_ManualRewardField := has_ManualRewardField st |}.

Definition set_response_cues_on (v : option Q) (st : state) : state :=
  {| split_ev := split_ev st; last_correct_s := last_correct_s st;
     curve_target := curve_target st; curve_stim_on := curve_stim_on st;
     curve_response := curve_response st;
     curve_switched := curve_switched st;
     fixation_stim_on := fixation_stim_on st; response_cues_on := v;
     curr_state := curr_state st; began_fixation := began_fixation st;
     has_ManualRewardField := has_ManualRewardField st |}.

Definition set_curr_state (v : option cell) (st : state) : state :=
  {| split_ev := split_ev st; last_correct_s := last_correct_s st;
     curve_target := curve_target st; curve_stim_on := curve_stim_on st;
     curve_response := curve_response st;
     curve_switched := curve_switched st;
     fixation_stim_on := fixation_stim_on st;
     response_cues_on := response_cues_on st; curr_state := v;
     began_fixation := began_fixation st;
     has_ManualRewardField := has_ManualRewardField st |}.

Definition set_began_fixation (v : option Q) (st : state) : state :=
  {| split_ev := split_ev st; last_correct_s := last_correct_s st;
     curve_target := curve_target st; curve_stim_on := curve_stim_on st;
     curve_response := curve_response st;
     curve_switched := curve_switched st;
     fixation_stim_on := fixation_stim_on st;
     response_cues_on := response_cues_on st; curr_state := curr_state st;
     began_fixation := v;
     has_ManualRewardField := has_ManualRewardField st |}.

Definition set_has_ManualRewardField (v : bool) (st : state) : state :=
  {| split_ev := split_ev st; last_correct_s := last_correct_s st;
     curve_target := curve_target st; curve_stim_on := curve_stim_on st;
     curve_response := curve_response st;
     curve_switched := curve_switched st;
     fixation_stim_on := fixation_stim_on st;
     response_cues_on := response_cues_on st; curr_state := curr_state st;
     began_fixation := began_fixation st; has_ManualRewardField := v |}.

(** The sixteen condition names, in the order of the dict literal. *)
Definition condition_names : list string :=
  [ "AttendUL_COR"; "AttendDL_COR"; "AttendUR_COR"; "AttendDR_COR";
    "AttendCenter_COR"; "CurveFalseHit"; "CurveNoResponse";
    "CurveFixationBreak"; "CurveNotCOR"; "PreSwitchCurves"; "ResponseCues";
    "HandLeft"; "HandRight"; "Reward"; "FixationTask"; "Fixating" ].

Definition init_split_ev : gmap string (list Event.t) :=
  list_to_map (map (fun k => (k, @nil Event.t)) condition_names).

Definition init_state : state :=
  {| split_ev := init_split_ev;
     last_correct_s := (-15)%Q;
     curve_target := None;
     curve_stim_on := None;
     curve_response := None;
     curve_switched := false;
     fixation_stim_on := None;
     response_cues_on := None;
     curr_state := None;
     began_fixation := None;
     has_ManualRewardField := false |}.

(** [split_ev[key].append(e)]: the dict is indexed first, then the
    argument is evaluated, then the list grows at its end. *)
Definition append_event (key : string) (e : result Event.t) (st : state)
    : result state :=
  match split_ev st !! key with
  | None => Raise (KeyError key)
  | Some l =>
      x <- e ;;
      Ok (set_split_ev (<[key := l ++ [x]]> (split_ev st)) st)
  end.

(** ** One row of the scan *)

Definition dquote : string := String (ascii_of_nat 34) EmptyString.

(** The block [if event.event == 'NewState': ...]. *)
Definition track_state (ev : row) (st : state) : state :=
  if cell_is (event ev) "NewState" then
    let st := set_curr_state (Some (info ev)) st in
    if var_is (curr_state st) "SWITCHED" then set_curve_switched true st
    else st
  else st.

(** The block [if event.event == 'Fixation': ...]. *)
Definition track_fixation (ev : row) (st : state) : result state :=
  if cell_is (event ev) "Fixation" then
    if cell_is (info ev) "Out" then
      st <- match began_fixation st with
            | Some _ =>
                append_event "Fixating"
                  (Event.span (began_fixation st) (time_s ev)) st
            | None => Ok st
            end ;;
      Ok (set_began_fixation None st)
    else
      _ <- py_assert (cell_is (info ev) "In")
             (Some ("Unrecognized fixation event info " +:+ dquote +:+
                    str_of_cell (info ev) +:+ dquote)) ;;
      Ok (set_began_fixation (Some (time_s ev)) st)
  else Ok st.

(** The condition of the assertion on [event.task] at a POSTSWITCH row;
    [NaN.lower()] raises [AttributeError]. *)
Definition known_task (c : cell) : result bool :=
  match c with
  | Str s =>
      Ok (String.eqb s "Curve tracing" || String.eqb s "Control CT" ||
          String.eqb s "Catch CT" ||
          String.eqb (lower s) (lower "Keep busy"))
  | NaN => Raise AttributeError
  end.

(** The classification of the trial at a POSTSWITCH row: the name of the
    bucket, and the state with [last_correct_s] updated on the last
    branch. *)
Definition classify (ev : row) (st : state) : result (string * state) :=
  let event_type := "Attend" +:+ str_of_var (curve_target st) +:+ "_COR" in
  if var_is (curve_response st) "INCORRECT" then
    Ok ("CurveFalseHit", st)
  else
    match curve_response st with
    | None =>
        if curve_switched st then Ok ("CurveNoResponse", st)
        else Ok ("CurveFixationBreak", st)
    | Some _ =>
        if var_is (curve_response st) "FixationBreak" then
          Ok ("CurveFixationBreak", st)
        else
          let st := set_last_correct_s (time_s ev) st in
          _ <- py_assert (var_is (curve_response st) "CORRECT")
                 (Some ("Unhandled curve_response " +:+
                        str_of_var (curve_response st))) ;;
          Ok (event_type, st)
    end.

(** The body of the branch taken at a POSTSWITCH row of a task other
    than the fixation task. *)
Definition trial_resolution (ev : row) (st : state) : result state :=
  known <- known_task (task ev) ;;
  _ <- py_assert known
         (Some ("Unknown event task " +:+ str_of_cell (task ev))) ;;
  _ <- py_assert (bool_decide (is_Some (curve_stim_on st))) None ;;
  st <- append_event "PreSwitchCurves"
          (Event.span (curve_stim_on st) (time_s ev)) st ;;
  c <- classify ev st ;;
  let event_type := fst c in
  let st := snd c in
  st <- append_event event_type
          (Event.span (curve_stim_on st) (time_s ev)) st ;;
  st <- (if String.eqb event_type "CurveFalseHit" ||
            String.eqb event_type "CurveNoResponse" ||
            String.eqb event_type "CurveFixationBreak"
         then append_event "CurveNotCOR"
                (Event.span (curve_stim_on st) (time_s ev)) st
         else Ok st) ;;
  match response_cues_on st with
  | Some _ =>
      append_event "ResponseCues"
        (Event.span (response_cues_on st) (time_s ev)) st
  | None => Ok st
  end.

(** The [if ... elif ...] chain of the loop body. *)
Definition dispatch (ev : row) (st : state) : result state :=
  if cell_is (event ev) "TargetLoc" then
    Ok (set_curve_target (Some (info ev)) st)
  else if cell_is (event ev) "NewState" && cell_is (info ev) "TRIAL_END" then
    Ok (set_response_cues_on None
       (set_fixation_stim_on None
       (set_curve_switched false
       (set_curve_response None
       (set_curve_stim_on None
       (set_curve_target None st))))))
  else if cell_is (event ev) "NewState" && cell_is (info ev) "PRESWITCH" then
    _ <- py_assert (bool_decide (is_Some (curve_target st))) None ;;
    Ok (set_curve_stim_on (Some (time_s ev)) st)
  else if cell_is (task ev) "Fixation" && cell_is (event ev) "NewState" &&
          cell_is (info ev) "FIXATION_PERIOD" then
    Ok (set_fixation_stim_on (Some (time_s ev)) st)
  else if cell_is (task ev) "Fixation" && cell_is (event ev) "NewState" &&
          cell_is (info ev) "POSTFIXATION" then
    append_event "FixationTask"
      (Event.span (fixation_stim_on st) (time_s ev)) st
  else if cell_is (event ev) "NewState" && cell_is (info ev) "SWITCHED" then
    Ok (set_response_cues_on (Some (time_s ev)) st)
  else if cell_is (event ev) "NewState" && cell_is (info ev) "POSTSWITCH" &&
          negb (cell_is (task ev) "Fixation") then
    trial_resolution ev st
  else if cell_is (event ev) "ResponseGiven" &&
          negb (bool_decide (is_Some (curve_response st))) then
    Ok (set_curve_response (Some (info ev)) st)
  else if cell_is (event ev) "Response_Initiate" then
    append_event ("Hand" +:+ str_of_cell (info ev))
      (Event.instant (time_s ev) (AmpNum 1)) st
  else if cell_is (event ev) "ResponseReward" ||
          cell_is (event ev) "TaskReward" then
    append_event "Reward"
      (Event.instant (time_s ev) (AmpInfo (info ev))) st
  else if cell_is (event ev) "ManualReward" then
    let st := set_has_ManualRewardField true st in
    append_event "Reward"
      (Event.instant (time_s ev) (AmpInfo (info ev))) st
  else if cell_is (event ev) "Reward" && cell_is (info ev) "Manual" then
    st <- append_event "Reward"
            (Event.instant (time_s ev) (AmpNum (4 # 100))) st ;;
    _ <- py_assert (negb (has_ManualRewardField st))
           (Some ("Event log should not have ('Reward','Manual') " +:+
                  "entry if it has ('ManualReward') entry.")) ;;
    Ok st
  else Ok st.

(** The body of [for irow, event in events.iterrows()]. *)
Definition process_row (st : state) (ev : row) : result state :=
  st <- track_fixation ev (track_state ev st) ;;
  dispatch ev st.

(** The loop. *)
Fixpoint scan (st : state) (events : list row) : result state :=
  match events with
  | [] => Ok st
  | ev :: rest => st' <- process_row st ev ;; scan st' rest
  end.

(** ** The whole computation *)

(** A row of [events[(events['event'] == 'MRI_Trigger') &
    (events['info'] == 'Received')]]. *)
Definition is_trigger (ev : row) : bool :=
  cell_is (event ev) "MRI_Trigger" && cell_is (info ev) "Received".

(** [mri_triggers.iloc[0].time_s]; [iloc[0]] of an empty frame raises
    [IndexError]. *)
Definition start_time (events : list row) : result Q :=
  match List.filter is_trigger events with
  | trig :: _ => Ok (time_s trig)
  | [] => Raise IndexError
  end.

(** The two column updates that make the times relative to the first
    trigger. *)
Definition normalize (start_time_s : Q) (ev : row) : row :=
  {| task := task ev; event := event ev; info := info ev;
     time_s := (time_s ev - start_time_s)%Q;
     record_time_s := (record_time_s ev - start_time_s)%Q |}.

(** [events.iloc[len(events) - 1]]. *)
Definition last_row (events : list row) : result row :=
  match List.last (map Some events) None with
  | Some ev => Ok ev
  | None => Raise IndexError
  end.

(** [end_time_s / TR]: a zero sampling period raises
    ([ZeroDivisionError] for Python numbers; with a numpy float the
    quotient is inf or nan and [int] raises on it). *)
Definition py_div (a b : Q) : result Q :=
  if Qeq_bool b 0 then Raise ZeroDivisionError else Ok (a / b)%Q.

(** One record of an output table. *)
Record cevent : Type := mkCevent {
  time : option Q;
  dur : Q;
  amplitude : amp
}.

Definition to_cevent (e : Event.t) : cevent :=
  {| time := Event.time_s e; dur := Event.dur_s e;
     amplitude := Event.amplitude e |}.

Definition process_events (event_log : list row) (TR : Q) (in_nvols : Z)
    : result (gmap string (list cevent) * Q * Z) :=
  start_time_s <- start_time event_log ;;
  let events := map (normalize start_time_s) event_log in
  st <- scan init_state events ;;
  final <- last_row events ;;
  let end_time_s := py_min (last_correct_s st + 15)%Q (time_s final) in
  q <- py_div end_time_s TR ;;
  let nvols := Z.min (py_int q) in_nvols in
  let cond_events := (map to_cevent) <$> split_ev st in
  Ok (cond_events, end_time_s, nvols).

(** ** Notions of the specification *)

(** A POSTSWITCH transition row of a task other than the fixation task. *)
Definition is_postswitch (ev : row) : bool :=
  cell_is (event ev) "NewState" && cell_is (info ev) "POSTSWITCH" &&
  negb (cell_is (task ev) "Fixation").

Definition is_trial_end (ev : row) : bool :=
  cell_is (event ev) "NewState" && cell_is (info ev) "TRIAL_END".

Definition is_fixation_period (ev : row) : bool :=
  cell_is (task ev) "Fixation" && cell_is (event ev) "NewState" &&
  cell_is (info ev) "FIXATION_PERIOD".

Definition is_postfixation (ev : row) : bool :=
  cell_is (task ev) "Fixation" && cell_is (event ev) "NewState" &&
  cell_is (info ev) "POSTFIXATION".

(** The reward markers whose payload is the amplitude. *)
Definition is_payload_reward (ev : row) : bool :=
  cell_is (event ev) "ResponseReward" || cell_is (event ev) "TaskReward" ||
  cell_is (event ev) "ManualReward".

Definition is_ManualReward (ev : row) : bool :=
  cell_is (event ev) "ManualReward".

(** The legacy encoding of a manual reward. *)
Definition is_legacy_manual (ev : row) : bool :=
  cell_is (event ev) "Reward" && cell_is (info ev) "Manual".

(** Row timestamps that never decrease along the log. *)
Fixpoint nondecreasing_from (t : Q) (events : list row) : bool :=
  match events with
  | [] => true
  | ev :: rest => Qle_bool t (time_s ev) && nondecreasing_from (time_s ev) rest
  end.

Definition nondecreasing (events : list row) : bool :=
  match events with
  | [] => true
  | ev :: rest => nondecreasing_from (time_s ev) rest
  end.

(** Which variable of the scan gives the onset of the events of a
    bucket. *)
Inductive source : Type :=
| SrcCurve      (* curve_stim_on *)
| SrcCues       (* response_cues_on *)
| SrcFixTask    (* fixation_stim_on *)
| SrcFixating   (* began_fixation *)
| SrcHand       (* the time of the row *)
| SrcReward.    (* the time of the row *)

Definition bucket_source (k : string) : source :=
  if String.eqb k "Fixating" then SrcFixating
  else if String.eqb k "FixationTask" then SrcFixTask
  else if String.eqb k "ResponseCues" then SrcCues
  else if String.eqb k "Reward" then SrcReward
  else if String.prefix "Hand" k then SrcHand
  else SrcCurve.

Definition source_var (st : state) (s : source) : option Q :=
  match s with
  | SrcCurve => curve_stim_on st
  | SrcCues => response_cues_on st
  | SrcFixTask => fixation_stim_on st
  | SrcFixating => began_fixation st
  | SrcHand | SrcReward => None
  end.

(** The amplitude that a reward row gives to its event. *)
Definition reward_amp (ev : row) (a : amp) : Prop :=
  (is_payload_reward ev = true /\ a = AmpInfo (info ev)) \/
  (is_legacy_manual ev = true /\ a = AmpNum (4 # 100)).

(** The events that row [ev], met in state [st], may append to bucket
    [k]. *)
Definition emits (st : state) (ev : row) (k : string) (e : Event.t) : Prop :=
  match bucket_source k with
  | SrcHand => e = Event.mk (Some (time_s ev)) 0 1 (AmpNum 1)
  | SrcReward =>
      exists a, e = Event.mk (Some (time_s ev)) 0 1 a /\ reward_amp ev a
  | s =>
      exists c, source_var st s = Some c /\
                e = Event.mk (Some c) (time_s ev - c) 1 (AmpNum 1)
  end.

(** [appends st ev m m']: the dict [m'] is [m] after some events that
    [ev] emits were appended to existing buckets. *)
Inductive appends (st : state) (ev : row)
    : gmap string (list Event.t) -> gmap string (list Event.t) -> Prop :=
| appends_nil m : appends st ev m m
| appends_cons m m' k l e :
    m !! k = Some l ->
    emits st ev k e ->
    appends st ev (<[k := l ++ [e]]> m) m' ->
    appends st ev m m'.

(** A variable that holds a time keeps its value, is cleared, or
    receives the time of the row. *)
Definition var_step (t : Q) (o o' : option Q) : Prop :=
  o' = o \/ o' = None \/ o' = Some t.

(** What one row may do to the buckets and to the variables that hold
    times. *)
Definition row_effects (st : state) (ev : row) (st' : state) : Prop :=
  appends st ev (split_ev st) (split_ev st') /\
  var_step (time_s ev) (curve_stim_on st) (curve_stim_on st') /\
  var_step (time_s ev) (response_cues_on st) (response_cues_on st') /\
  var_step (time_s ev) (fixation_stim_on st) (fixation_stim_on st') /\
  var_step (time_s ev) (began_fixation st) (began_fixation st').


(** ** Invariants of the scan *)

(** An event of a bucket, at a moment when the last row read has time
    [T] and the variable that gives the onsets of the bucket holds
    [bound]: its onset is at most [T] and at most the value of the
    variable, and its duration is not negative. *)
Definition event_ok (T : Q) (bound : option Q) (e : Event.t) : Prop :=
  exists o, Event.time_s e = Some o /\ (o <= T)%Q /\
            (forall v, bound = Some v -> (o <= v)%Q) /\
            (0 <= Event.dur_s e)%Q.

(** Onsets that never decrease along a bucket. *)
Definition onsets_ordered (l : list Event.t) : Prop :=
  forall (i j : nat) (a b : Event.t),
    (i < j)%nat -> l !! i = Some a -> l !! j = Some b ->
    exists ta tb, Event.time_s a = Some ta /\ Event.time_s b = Some tb /\
                  (ta <= tb)%Q.

Definition buckets_ok (T : Q) (st : state) (m : gmap string (list Event.t))
    : Prop :=
  forall k l, m !! k = Some l ->
    Forall (event_ok T (source_var st (bucket_source k))) l /\
    onsets_ordered l.

Definition vars_ok (T : Q) (st : state) : Prop :=
  forall s v, source_var st s = Some v -> (v <= T)%Q.

Definition timed_inv (T : Q) (st : state) : Prop :=
  vars_ok T st /\ buckets_ok T st (split_ev st).

(** The amplitude of an event of bucket [k], given the rows read so far:
    1, or what a reward row gave it. *)
Definition amp_ok (seen : list row) (k : string) (e : Event.t) : Prop :=
  match bucket_source k with
  | SrcReward => exists r, In r seen /\ reward_amp r (Event.amplitude e)
  | _ => Event.amplitude e = AmpNum 1
  end.

Definition buckets_amp (seen : list row) (m : gmap string (list Event.t))
    : Prop :=
  forall k l, m !! k = Some l -> Forall (amp_ok seen k) l.

(** ** Logs used as examples *)

Definition R (task event info : string) (t : Q) : row :=
  mkRow (Str task) (Str event) (Str info) t t.

(** One correct trial on target UL: stimulus at 5 s, outcome at 10 s. *)
Definition scenario_A : list row :=
  [ R "Curve tracing" "MRI_Trigger" "Received" 0;
    R "Curve tracing" "TargetLoc" "UL" 1;
    R "Curve tracing" "NewState" "PRESWITCH" 5;
    R "Curve tracing" "NewState" "SWITCHED" 8;
    R "Curve tracing" "ResponseGiven" "CORRECT" 9;
    R "Curve tracing" "NewState" "POSTSWITCH" 10 ].

(** No correct trial, last row at 100 s. *)
Definition scenario_E : list row :=
  [ R "Curve tracing" "MRI_Trigger" "Received" 0;
    R "Curve tracing" "TargetLoc" "UL" 1;
    R "Curve tracing" "NewState" "PRESWITCH" 5;
    R "Curve tracing" "NewState" "POSTSWITCH" 10;
    R "Curve tracing" "NewState" "TRIAL_END" 100 ].

(** A log without a trigger row. *)
Definition log_no_trigger : list row :=
  [ R "Curve tracing" "TargetLoc" "UL" 1;
    R "Curve tracing" "NewState" "PRESWITCH" 5 ].


Definition out_lookup (r : result (gmap string (list cevent) * Q * Z))
    (k : string) : option (list cevent) :=
  match r with
  | Ok (m, _, _) => m !! k
  | Raise _ => None
  end.

Definition out_end_time (r : result (gmap string (list cevent) * Q * Z))
    : option Q :=
  match r with
  | Ok (_, end_time_s, _) => Some end_time_s
  | Raise _ => None
  end.


(** A fixation interval whose closing row carries an earlier timestamp
    than its opening row. *)
Definition log_fixation_backwards : list row :=
  [ R "Curve tracing" "MRI_Trigger" "Received" 0;
    R "Curve tracing" "Fixation" "In" 5;
    R "Curve tracing" "Fixation" "Out" 3 ].

(** Two rewards, the second with the earlier timestamp. *)
Definition log_rewards_backwards : list row :=
  [ R "Curve tracing" "MRI_Trigger" "Received" 0;
    R "Curve tracing" "TaskReward" "0.04" 5;
    R "Curve tracing" "TaskReward" "0.04" 3 ].

(** A fixation interval and the three kinds of reward rows, in the order
    of their timestamps. *)
Definition log_rewards : list row :=
  [ R "Curve tracing" "MRI_Trigger" "Received" 0;
    R "Curve tracing" "Fixation" "In" 1;
    R "Curve tracing" "TaskReward" "0.04" 3;
    R "Curve tracing" "ResponseReward" "0.08" 4;
    R "Curve tracing" "Reward" "Manual" 5;
    R "Curve tracing" "Fixation" "Out" 6 ].

(** ** The most recent correct trial *)

(** Row [ev], met in state [st], resolves a trial whose latched response
    outcome is 'CORRECT'. *)
Definition classified_correct (st : state) (ev : row) : bool :=
  is_postswitch ev && var_is (curve_response st) "CORRECT".

(** The times of the rows that resolve a trial as correct, in the order
    of the log, for the scan of [events] from state [st]. *)
Fixpoint correct_times (st : state) (events : list row) : list Q :=
  match events with
  | [] => []
  | ev :: rest =>
      match process_row st ev with
      | Ok st' =>
          (if classified_correct st ev then [time_s ev] else []) ++
          correct_times st' rest
      | Raise _ => []
      end
  end.

(** The time of the most recent correct trial, or the sentinel. *)
Definition most_recent_correct (events : list row) : Q :=
  List.last (correct_times init_state events) (-15)%Q.

(** ** The onset of the fixation task *)

(** Whether [fixation_stim_on] is unset after the rows [events], given
    whether it was unset before them: a TRIAL_END row clears it and a
    FIXATION_PERIOD row of the fixation task sets it. *)
Fixpoint fixation_onset_missing (unset : bool) (events : list row) : bool :=
  match events with
  | [] => unset
  | ev :: rest =>
      fixation_onset_missing
        (if is_trial_end ev then true
         else if is_fixation_period ev then false
         else unset)
        rest
  end.

(** A POSTFIXATION row of the fixation task with no FIXATION_PERIOD row
    before it. *)
Definition log_postfixation_first : list row :=
  [ R "Fixation" "MRI_Trigger" "Received" 0;
    R "Fixation" "NewState" "POSTFIXATION" 4 ].

(** ** The two encodings of a manual reward *)

(** The legacy encoding first, the current one after it. *)
Definition log_legacy_then_manual : list row :=
  [ R "Curve tracing" "MRI_Trigger" "Received" 0;
    R "Curve tracing" "Reward" "Manual" 1;
    R "Curve tracing" "ManualReward" "0.04" 2 ].

(** The current encoding first, the legacy one after it. *)
Definition log_manual_then_legacy : list row :=
  [ R "Curve tracing" "MRI_Trigger" "Received" 0;
    R "Curve tracing" "ManualReward" "0.04" 1;
    R "Curve tracing" "Reward" "Manual" 2 ].

Definition conflicting_encoding : error :=
  AssertionError
    (Some ("Event log should not have ('Reward','Manual') " +:+
           "entry if it has ('ManualReward') entry.")).

(** ** The outcome of a trial *)

(** The three outcomes that also go to 'CurveNotCOR'. *)
Definition is_not_correct (b : string) : bool :=
  String.eqb b "CurveFalseHit" || String.eqb b "CurveNoResponse" ||
  String.eqb b "CurveFixationBreak".

(** The bucket of the outcome, in the words of the specification:
    attend-target-correct for the latched response 'CORRECT', false hit
    for 'INCORRECT', no response when nothing was latched and the
    switched flag is set, fixation break when nothing was latched and
    the flag is unset or when 'FixationBreak' was latched; no bucket for
    any other latched value. *)
Definition outcome_bucket (st : state) : option string :=
  match curve_response st with
  | None =>
      if curve_switched st then Some "CurveNoResponse"
      else Some "CurveFixationBreak"
  | Some c =>
      if cell_is c "CORRECT" then
        Some ("Attend" +:+ str_of_var (curve_target st) +:+ "_COR")
      else if cell_is c "INCORRECT" then Some "CurveFalseHit"
      else if cell_is c "FixationBreak" then Some "CurveFixationBreak"
      else None
  end.

(** The event that spans the stimulus onset [t0] and the row [ev]. *)
Definition trial_event (t0 : Q) (ev : row) : Event.t :=
  Event.mk (Some t0) (time_s ev - t0) 1 (AmpNum 1).

(** A correct trial closed by a POSTSWITCH row whose task label is not
    one of the known ones. *)
Definition log_unknown_task : list row :=
  [ R "Curve tracing" "MRI_Trigger" "Received" 0;
    R "Curve tracing" "TargetLoc" "UL" 1;
    R "Curve tracing" "NewState" "PRESWITCH" 5;
    R "Curve tracing" "ResponseGiven" "CORRECT" 9;
    R "Foo" "NewState" "POSTSWITCH" 10 ].

(** A correct trial on a target that names no bucket. *)
Definition log_unknown_target : list row :=
  [ R "Curve tracing" "MRI_Trigger" "Received" 0;
    R "Curve tracing" "TargetLoc" "XX" 1;
    R "Curve tracing" "NewState" "PRESWITCH" 5;
    R "Curve tracing" "ResponseGiven" "CORRECT" 9;
    R "Curve tracing" "NewState" "POSTSWITCH" 10 ].

(** A trial with the response 'INCORRECT'. *)
Definition scenario_B : list row :=
  [ R "Curve tracing" "MRI_Trigger" "Received" 0;
    R "Curve tracing" "TargetLoc" "UL" 1;
    R "Curve tracing" "NewState" "PRESWITCH" 5;
    R "Curve tracing" "NewState" "SWITCHED" 8;
    R "Curve tracing" "ResponseGiven" "INCORRECT" 9;
    R "Curve tracing" "NewState" "POSTSWITCH" 10 ].

(** The state of the scan after the rows [events], if it gets there. *)
Definition state_after (events : list row) : option state :=
  match scan init_state events with
  | Ok st => Some st
  | Raise _ => None
  end.

(** The state in which a correct trial on target UL waits for its
    POSTSWITCH row, and that row. *)
Definition st_correct_trial : state :=
  set_curve_response (Some (Str "CORRECT"))
    (set_curve_stim_on (Some 5%Q)
       (set_curve_target (Some (Str "UL")) init_state)).

Definition row_postswitch : row :=
  R "Curve tracing" "NewState" "POSTSWITCH" 10.

(** ** Counting the events of the buckets *)

(** [len(split_ev[k])], or 0 for a name that is no key. *)
Definition bucket_len {A : Type} (m : gmap string (list A)) (k : string)
    : nat :=
  match m !! k with
  | Some l => length l
  | None => 0%nat
  end.

Definition sum_len {A : Type} (m : gmap string (list A))
    (keys : list string) : nat :=
  list_sum (map (bucket_len m) keys).

(** The buckets of the outcomes of a trial. *)
Definition attend_names : list string :=
  [ "AttendUL_COR"; "AttendDL_COR"; "AttendUR_COR"; "AttendDR_COR";
    "AttendCenter_COR" ].

Definition not_correct_names : list string :=
  [ "CurveFalseHit"; "CurveNoResponse"; "CurveFixationBreak" ].

Definition outcome_names : list string := attend_names ++ not_correct_names.

(** The number of POSTSWITCH rows of tasks other than the fixation task. *)
Definition count_postswitch (events : list row) : nat :=
  length (List.filter is_postswitch events).

(** A bucket only grows at its end. *)
Definition extends (m m' : gmap string (list Event.t)) : Prop :=
  forall k l, m !! k = Some l -> exists l', m' !! k = Some (l ++ l').

(** ** The variables of a trial *)

Definition is_target_loc (ev : row) : bool := cell_is (event ev) "TargetLoc".

Definition is_preswitch (ev : row) : bool :=
  cell_is (event ev) "NewState" && cell_is (info ev) "PRESWITCH".

Definition is_switched (ev : row) : bool :=
  cell_is (event ev) "NewState" && cell_is (info ev) "SWITCHED".

Definition is_response_given (ev : row) : bool :=
  cell_is (event ev) "ResponseGiven".

(** The response outcome that is latched after the rows [events], given
    the one latched before them: a TRIAL_END row clears it, and a
    'ResponseGiven' row sets it only when none is latched. *)
Fixpoint latched_response (latched : option cell) (events : list row)
    : option cell :=
  match events with
  | [] => latched
  | ev :: rest =>
      latched_response
        (if is_trial_end ev then None
         else if is_response_given ev then
           match latched with
           | Some c => Some c
           | None => Some (info ev)
           end
         else latched)
        rest
  end.

(** Whether a target is set after the rows [events], given whether one
    was set before them. *)
Fixpoint target_set (set : bool) (events : list row) : bool :=
  match events with
  | [] => set
  | ev :: rest =>
      target_set
        (if is_target_loc ev then true
         else if is_trial_end ev then false
         else set)
        rest
  end.

(** A trial with two responses, the first one incorrect. *)
Definition log_two_responses : list row :=
  [ R "Curve tracing" "MRI_Trigger" "Received" 0;
    R "Curve tracing" "TargetLoc" "UL" 1;
    R "Curve tracing" "NewState" "PRESWITCH" 5;
    R "Curve tracing" "NewState" "SWITCHED" 8;
    R "Curve tracing" "ResponseGiven" "INCORRECT" 9;
    R "Curve tracing" "ResponseGiven" "CORRECT" 9.5;
    R "Curve tracing" "NewState" "POSTSWITCH" 10 ].

(** A PRESWITCH row that no TargetLoc row precedes. *)
Definition log_preswitch_first : list row :=
  [ R "Curve tracing" "MRI_Trigger" "Received" 0;
    R "Curve tracing" "NewState" "PRESWITCH" 5 ].

(** A fixation marker whose info is neither 'In' nor 'Out'. *)
Definition log_fixation_unknown : list row :=
  [ R "Curve tracing" "MRI_Trigger" "Received" 0;
    R "Curve tracing" "Fixation" "Lost" 2 ].

Definition unrecognized_fixation (c : cell) : error :=
  AssertionError
    (Some ("Unrecognized fixation event info " +:+ dquote +:+
           str_of_cell c +:+ dquote)).

(** A response initiated with a hand that has no bucket. *)
Definition log_hand_unknown : list row :=
  [ R "Curve tracing" "MRI_Trigger" "Received" 0;
    R "Curve tracing" "Response_Initiate" "Both" 2 ].

Definition log_hand_left : list row :=
  [ R "Curve tracing" "MRI_Trigger" "Received" 0;
    R "Curve tracing" "Response_Initiate" "Left" 2 ].

Definition is_response_initiate (ev : row) : bool :=
  cell_is (event ev) "Response_Initiate".

(** * Helpers of the workflows *)

(** ** [sort_copes] of [fmri_workflow.py] and [modelfit_workflow.py] *)

(** [l[i]] for an index that is not negative. *)
Definition py_index {A : Type} (l : list A) (i : nat) : result A :=
  match l !! i with
  | Some x => Ok x
  | None => Raise IndexError
  end.

(** The inner loop, [for j, elements in enumerate(files):
    outfiles[i].append(elements[i])], on the list [outfiles[i]]. *)
Fixpoint sort_copes_inner {A : Type} (files : list (list A)) (i : nat)
    (outfiles_i : list A) : result (list A) :=
  match files with
  | [] => Ok outfiles_i
  | elements :: rest =>
      x <- py_index elements i ;;
      sort_copes_inner rest i (outfiles_i ++ [x])
  end.

(** The outer loop over [range(numelements)]; [outfiles.insert(i, [])]
    is called with [i = len(outfiles)], so the new list goes to the
    end. *)
Fixpoint sort_copes_outer {A : Type} (files : list (list A))
    (range : list nat) (outfiles : list (list A))
    : result (list (list A)) :=
  match range with
  | [] => Ok outfiles
  | i :: range' =>
      outfiles_i <- sort_copes_inner files i [] ;;
      sort_copes_outer files range' (outfiles ++ [outfiles_i])
  end.

(** [sort_copes] of [fmri_workflow.py]. *)
Definition sort_copes {A : Type} (files : list (list A))
    : result (list (list A)) :=
  first <- py_index files 0 ;;
  let numelements := length first in
  sort_copes_outer files (seq 0 numelements) [].

(** [sort_copes] of [modelfit_workflow.py]: the same loops after two
    assertions; [files[0] is not str] compares with the type [str] and
    holds for every list. *)
Definition sort_copes_checked {A : Type} (files : list (list A))
    : result (list (list A)) :=
  first <- py_index files 0 ;;
  let numcopes := length first in
  _ <- py_assert (Nat.ltb 1 numcopes) None ;;
  sort_copes_outer files (seq 0 numcopes) [].

(** [num_copes]. *)
Definition num_copes {A : Type} (files : list A) : nat := length files.

(** [pickfirst = lambda x: x[0]]. *)
Definition pickfirst {A : Type} (x : list A) : result A := py_index x 0.

(** Every list has at least the length of the first one. *)
Definition long_enough {A : Type} (files : list (list A)) : Prop :=
  match files with
  | [] => False
  | first :: _ => Forall (fun els => (length first <= length els)%nat) files
  end.

(** Every list has the length [n]. *)
Definition rectangular {A : Type} (n : nat) (files : list (list A)) : Prop :=
  Forall (fun els => length els = n) files.

(** ** [evt_info] of [modelfit_workflow.py] *)

(** A dict from condition names to tables, with its keys in the order of
    their insertion. *)
Definition dict : Type := list (string * list cevent).

(** [ev.keys()]. *)
Definition dict_keys (ev : dict) : list string := map fst ev.

(** [ev[name]]. *)
Fixpoint dict_get (ev : dict) (name : string) : result (list cevent) :=
  match ev with
  | [] => Raise (KeyError name)
  | (k, df) :: rest => if String.eqb k name then Ok df else dict_get rest name
  end.

(** A column of a table, [df.time] and the like: the table that
    [pd.DataFrame] makes of an empty list of records has no column, and
    the attribute is missing. *)
Definition column {B : Type} (f : cevent -> B) (df : list cevent)
    : result (list B) :=
  match df with
  | [] => Raise AttributeError
  | _ :: _ => Ok (map f df)
  end.

(** [[f(x) for x in l]] with an [f] that may raise. *)
Fixpoint for_each {A B : Type} (f : A -> result B) (l : list A)
    : result (list B) :=
  match l with
  | [] => Ok []
  | x :: rest => y <- f x ;; ys <- for_each f rest ;; Ok (y :: ys)
  end.

(** The names that the loop [for name in ev.keys()] keeps. *)
Fixpoint nonempty_names (ev : dict) (keys : list string)
    : result (list string) :=
  match keys with
  | [] => Ok []
  | name :: rest =>
      df <- dict_get ev name ;;
      names <- nonempty_names ev rest ;;
      Ok (if Nat.ltb 0 (length df) then name :: names else names)
  end.

Record Bunch : Type := mkBunch {
  conditions : list string;
  onsets : list (list (option Q));
  durations : list (list Q);
  amplitudes : list (list amp)
}.

(** [deepcopy(ev[name].time) if ev[name].shape[0] > 0 else []]. *)
Definition guarded_column {B : Type} (f : cevent -> B) (ev : dict)
    (name : string) : result (list B) :=
  df <- dict_get ev name ;;
  if Nat.ltb 0 (length df) then df' <- dict_get ev name ;; column f df'
  else Ok [].

(** [deepcopy(ev[name].time)]. *)
Definition plain_column {B : Type} (f : cevent -> B) (ev : dict)
    (name : string) : result (list B) :=
  df <- dict_get ev name ;; column f df.

(** The body of the loop over the runs. *)
Definition evt_info_run (ev : dict) : result Bunch :=
  names <- nonempty_names ev (dict_keys ev) ;;
  _ <- for_each (guarded_column time ev) names ;;
  _ <- for_each (guarded_column dur ev) names ;;
  _ <- for_each (guarded_column amplitude ev) names ;;
  c_onsets <- for_each (plain_column time ev) names ;;
  c_durations <- for_each (plain_column dur ev) names ;;
  c_amplitudes <- for_each (plain_column amplitude ev) names ;;
  Ok (mkBunch names c_onsets c_durations c_amplitudes).

Definition evt_info (cond_events : list dict) : result (list Bunch) :=
  for_each evt_info_run cond_events.

(** The dict [cond_events] that [process_events] returns: its keys are
    inserted in the order of the dict literal [split_ev]. *)
Definition dict_of (out : gmap string (list cevent)) : dict :=
  omap (fun k => pair k <$> out !! k) condition_names.

(** A name whose table has a row. *)
Definition has_rows (ev : dict) (name : string) : Prop :=
  exists df, dict_get ev name = Ok df /\ df <> [].


(** ** The buckets that do not depend on the state *)

(** The event that a reward row gives to 'Reward', at the time [t]. *)
Definition reward_events (ev : row) : list Event.t :=
  if is_payload_reward ev then
    [Event.mk (Some (time_s ev)) 0 1 (AmpInfo (info ev))]
  else if is_legacy_manual ev then
    [Event.mk (Some (time_s ev)) 0 1 (AmpNum (4 # 100))]
  else [].

(** The event that a 'Response_Initiate' row with the info [hand] gives
    to the bucket of that hand. *)
Definition hand_events (hand : string) (ev : row) : list Event.t :=
  if is_response_initiate ev && cell_is (info ev) hand then
    [Event.mk (Some (time_s ev)) 0 1 (AmpNum 1)]
  else [].

(** The events of 'Fixating' that the rows [events] give, with [began]
    the time at which the fixation that is under way began, if one is:
    an 'Out' marker closes the interval that the last 'In' marker
    opened. *)
Fixpoint fixating_events (began : option Q) (events : list row)
    : list Event.t :=
  match events with
  | [] => []
  | ev :: rest =>
      if cell_is (event ev) "Fixation" then
        if cell_is (info ev) "Out" then
          match began with
          | Some b =>
              Event.mk (Some b) (time_s ev - b) 1 (AmpNum 1) ::
              fixating_events None rest
          | None => fixating_events None rest
          end
        else fixating_events (Some (time_s ev)) rest
      else fixating_events began rest
  end.

(** Fixation intervals among other rows. *)
Definition log_fixations : list row :=
  [ R "Curve tracing" "Fixation" "Out" 0;
    R "Curve tracing" "MRI_Trigger" "Received" 1;
    R "Curve tracing" "Fixation" "In" 2;
    R "Curve tracing" "TargetLoc" "UL" 3;
    R "Curve tracing" "Fixation" "In" 4;
    R "Curve tracing" "TaskReward" "0.04" 5;
    R "Curve tracing" "Response_Initiate" "Right" 6;
    R "Curve tracing" "Fixation" "Out" 7;
    R "Curve tracing" "Fixation" "Out" 8;
    R "Curve tracing" "Fixation" "In" 9 ].
(** ** Basic facts *)

Lemma bind_Ok {A B : Type} (r : result A) (k : A -> result B) (b : B) :
  bind r k = Ok b -> exists a, r = Ok a /\ k a = Ok b.
Proof. destruct r as [a|e]; simpl; [eauto | discriminate]. Qed.

Lemma bind_Raise {A B : Type} (r : result A) (k : A -> result B) (e : error) :
  r = Raise e -> bind r k = Raise e.
Proof. intros ->. reflexivity. Qed.

Lemma returns_Ok {A : Type} (r : result A) :
  returns r = true -> exists a, r = Ok a.
Proof. destruct r as [a|e]; simpl; [eauto | discriminate]. Qed.

Lemma py_assert_Ok (b : bool) (msg : option string) (u : unit) :
  py_assert b msg = Ok u -> b = true.
Proof. destruct b; simpl; [reflexivity | discriminate]. Qed.

Lemma append_event_Ok (k : string) (r : result Event.t) (st st' : state) :
  append_event k r st = Ok st' ->
  exists l x, split_ev st !! k = Some l /\ r = Ok x /\
              st' = set_split_ev (<[k := l ++ [x]]> (split_ev st)) st.
Proof.
  unfold append_event. destruct (split_ev st !! k) as [l|]; [|discriminate].
  intros H. apply bind_Ok in H as (x & Hx & H). inversion H. eauto.
Qed.

Lemma span_Ok (o : option Q) (t : Q) (x : Event.t) :
  Event.span o t = Ok x ->
  exists c, o = Some c /\ x = Event.mk (Some c) (t - c) 1 (AmpNum 1).
Proof.
  unfold Event.span, Event.init. destruct o as [c|]; [|discriminate].
  intros H. inversion H. eauto.
Qed.

Lemma cell_is_eq (c : cell) (s : string) : cell_is c s = true -> c = Str s.
Proof.
  destruct c as [|x]; simpl; [discriminate|].
  intros H. apply String.eqb_eq in H. congruence.
Qed.

Lemma appends_trans st ev m1 m2 m3 :
  appends st ev m1 m2 -> appends st ev m2 m3 -> appends st ev m1 m3.
Proof.
  induction 1; [auto|]. intros. eapply appends_cons; eauto.
Qed.

Lemma appends_one st ev (m : gmap string (list Event.t)) k l e :
  m !! k = Some l -> emits st ev k e ->
  appends st ev m (<[k := l ++ [e]]> m).
Proof. intros. eapply appends_cons; eauto. constructor. Qed.

Example scenario_A_correct :
  out_lookup (process_events scenario_A (25 # 10) 420) "AttendUL_COR"
  = Some [ mkCevent (Some (5 - 0)%Q) (10 - 0 - (5 - 0))%Q (AmpNum 1) ].
Proof. vm_compute. reflexivity. Qed.


(** ** What one row does *)

Lemma instant_Ok (t : Q) (a : amp) :
  Event.instant t a = Ok (Event.mk (Some t) 0 1 a).
Proof. reflexivity. Qed.

(** Symbolic execution of the successful computations in the context. *)
Ltac exec :=
  repeat match goal with
  | H : bind _ _ = Ok _ |- _ =>
      let a := fresh "a" in
      let Ha := fresh "Ha" in
      apply bind_Ok in H as (a & Ha & H)
  | H : (if ?b then _ else _) = Ok _ |- _ => destruct b eqn:?
  | H : match ?o with Some _ => _ | None => _ end = Ok _ |- _ =>
      destruct o eqn:?
  | H : Raise _ = Ok _ |- _ => discriminate H
  | H : append_event _ _ _ = Ok _ |- _ =>
      let l := fresh "l" in
      let x := fresh "x" in
      let Hl := fresh "Hl" in
      let Hx := fresh "Hx" in
      apply append_event_Ok in H as (l & x & Hl & Hx & ->)
  | H : Event.span _ _ = Ok _ |- _ =>
      let c := fresh "c" in
      let Hc := fresh "Hc" in
      apply span_Ok in H as (c & Hc & ->)
  | H : Event.instant _ _ = Ok _ |- _ =>
      rewrite instant_Ok in H; injection H as <-
  | H : py_assert _ _ = Ok _ |- _ => apply py_assert_Ok in H
  | H : Ok _ = Ok _ |- _ => injection H as <-
  end.

(** Two values read from one variable are the same value. *)
Ltac same_values :=
  repeat match goal with
  | H1 : ?x = Some ?a, H2 : ?x = Some ?b |- _ =>
      assert (b = a) as -> by congruence; clear H2
  end.

Lemma var_step_refl t o : var_step t o o.
Proof. left; reflexivity. Qed.

#[local] Hint Resolve var_step_refl : core.
#[local] Hint Constructors appends : core.
#[local] Hint Unfold var_step : core.

Lemma emits_Fixating st ev c :
  began_fixation st = Some c ->
  emits st ev "Fixating" (Event.mk (Some c) (time_s ev - c) 1 (AmpNum 1)).
Proof. intros H. cbn. eauto. Qed.

Lemma track_fixation_effects st ev st' :
  track_fixation ev st = Ok st' -> row_effects st ev st'.
Proof.
  unfold track_fixation, row_effects. intros H. exec; simplify_eq; simpl.
  all: split; [|auto 10].
  all: try (eapply appends_one; eauto using emits_Fixating).
  all: auto.
Qed.

Lemma bucket_source_Attend (x : string) :
  bucket_source ("Attend" +:+ x) = SrcCurve.
Proof. reflexivity. Qed.

Lemma bucket_source_Hand (x : string) :
  bucket_source ("Hand" +:+ x) = SrcHand.
Proof. destruct x; reflexivity. Qed.

Lemma emits_var st ev k c :
  source_var st (bucket_source k) = Some c ->
  emits st ev k (Event.mk (Some c) (time_s ev - c) 1 (AmpNum 1)).
Proof.
  unfold emits. destruct (bucket_source k); simpl; try discriminate; eauto.
Qed.

(** The bucket that [classify] names takes its onsets from
    [curve_stim_on], and [classify] changes nothing but
    [last_correct_s]. *)
Lemma classify_Ok ev st k st1 :
  classify ev st = Ok (k, st1) ->
  bucket_source k = SrcCurve /\
  (st1 = st \/ st1 = set_last_correct_s (time_s ev) st).
Proof.
  unfold classify. intros H. exec; simplify_eq; auto.
Qed.

Lemma trial_resolution_effects st ev st' :
  trial_resolution ev st = Ok st' -> row_effects st ev st'.
Proof.
  unfold trial_resolution, row_effects. intros H.
  apply bind_Ok in H as (known & _ & H).
  apply bind_Ok in H as (_ & _ & H).
  apply bind_Ok in H as (_ & _ & H).
  apply bind_Ok in H as (st1 & H1 & H).
  apply bind_Ok in H as ([k st2] & H2 & H). simpl in H.
  apply classify_Ok in H2 as [Hk Hst2].
  exec; destruct Hst2; simplify_eq; simpl in *; same_values.
  all: split; [|auto 10].
  all: repeat (eapply appends_cons;
               [eassumption | apply emits_var; try rewrite Hk; eassumption |]).
  all: apply appends_nil.
Qed.

Lemma emits_Hand st ev x :
  emits st ev ("Hand" +:+ x) (Event.mk (Some (time_s ev)) 0 1 (AmpNum 1)).
Proof. unfold emits. rewrite bucket_source_Hand. reflexivity. Qed.

Lemma emits_Reward st ev a :
  reward_amp ev a ->
  emits st ev "Reward" (Event.mk (Some (time_s ev)) 0 1 a).
Proof. intros H. cbn. eauto. Qed.

Lemma dispatch_effects st ev st' :
  dispatch ev st = Ok st' -> row_effects st ev st'.
Proof.
  unfold dispatch. intros H.
  repeat match type of H with
  | (if ?b then _ else _) = Ok _ => destruct b eqn:?
  end.
  7: { apply trial_resolution_effects; assumption. }
  all: unfold row_effects; exec; simplify_eq; simpl in *.
  all: split; [|auto 10].
  all: try apply appends_nil.
  all: eapply appends_one; [eassumption|].
  - apply emits_var; assumption.
  - apply emits_Hand.
  - apply emits_Reward; unfold reward_amp, is_payload_reward.
    left. split; [|reflexivity].
    match goal with
    | H : _ || _ = true |- _ => apply orb_true_iff in H as [-> | ->]
    end; rewrite ?orb_true_r; reflexivity.
  - apply emits_Reward; unfold reward_amp, is_payload_reward.
    left. split; [|reflexivity].
    match goal with
    | H : cell_is _ "ManualReward" = true |- _ => rewrite H
    end; rewrite ?orb_true_r; reflexivity.
  - apply emits_Reward; unfold reward_amp. right. auto.
Qed.

(** A fixation marker takes no branch of the [elif] chain, and only a
    fixation marker enters the fixation block. *)
Lemma dispatch_Fixation st ev :
  cell_is (event ev) "Fixation" = true -> dispatch ev st = Ok st.
Proof.
  intros H. apply cell_is_eq in H. unfold dispatch. rewrite H. simpl.
  destruct (cell_is (task ev) "Fixation"); reflexivity.
Qed.

Lemma track_state_Fixation st ev :
  cell_is (event ev) "Fixation" = true -> track_state ev st = st.
Proof.
  intros H. apply cell_is_eq in H. unfold track_state. rewrite H. reflexivity.
Qed.

Lemma bind_Ok_r {A : Type} (r : result A) : bind r Ok = r.
Proof. destruct r; reflexivity. Qed.

Lemma process_row_eq st ev :
  process_row st ev =
  if cell_is (event ev) "Fixation" then track_fixation ev st
  else dispatch ev (track_state ev st).
Proof.
  unfold process_row. destruct (cell_is (event ev) "Fixation") eqn:E.
  - rewrite track_state_Fixation by assumption.
    destruct (track_fixation ev st) as [st1|e]; simpl; [|reflexivity].
    apply dispatch_Fixation; assumption.
  - unfold track_fixation. rewrite E. reflexivity.
Qed.

Lemma track_state_vars st ev s :
  source_var (track_state ev st) s = source_var st s.
Proof.
  unfold track_state.
  destruct (cell_is (event ev) "NewState"); [|reflexivity].
  destruct (var_is _ _); destruct s; reflexivity.
Qed.

Lemma track_state_split_ev st ev :
  split_ev (track_state ev st) = split_ev st.
Proof.
  unfold track_state.
  destruct (cell_is (event ev) "NewState"); [|reflexivity].
  destruct (var_is _ _); reflexivity.
Qed.

Lemma emits_ext st1 st2 ev k e :
  (forall s, source_var st1 s = source_var st2 s) ->
  emits st1 ev k e -> emits st2 ev k e.
Proof.
  intros Hs. unfold emits. destruct (bucket_source k); try rewrite Hs; auto.
Qed.

Lemma appends_ext st1 st2 ev m m' :
  (forall s, source_var st1 s = source_var st2 s) ->
  appends st1 ev m m' -> appends st2 ev m m'.
Proof.
  intros Hs. induction 1; [constructor|].
  eapply appends_cons; eauto using emits_ext.
Qed.

Theorem process_row_effects st ev st' :
  process_row st ev = Ok st' -> row_effects st ev st'.
Proof.
  rewrite process_row_eq. destruct (cell_is (event ev) "Fixation").
  - apply track_fixation_effects.
  - intros H. apply dispatch_effects in H.
    destruct H as (Ha & H1 & H2 & H3 & H4).
    rewrite track_state_split_ev in Ha.
    pose proof (track_state_vars st ev) as Hv.
    pose proof (Hv SrcCurve) as E1. pose proof (Hv SrcCues) as E2.
    pose proof (Hv SrcFixTask) as E3. pose proof (Hv SrcFixating) as E4.
    simpl in E1, E2, E3, E4.
    rewrite E1 in H1. rewrite E2 in H2. rewrite E3 in H3. rewrite E4 in H4.
    repeat split; try assumption.
    eapply appends_ext; [|exact Ha]. exact Hv.
Qed.

(** ** The keys of the dict *)

Lemma appends_dom st ev (m m' : gmap string (list Event.t)) :
  appends st ev m m' -> dom m' = dom m.
Proof.
  induction 1 as [|m m' k l e Hk _ _ IH]; [reflexivity|].
  rewrite IH, dom_insert_L.
  apply elem_of_dom_2 in Hk.
  apply subseteq_union_1_L, singleton_subseteq_l. exact Hk.
Qed.

Lemma process_row_dom st ev st' :
  process_row st ev = Ok st' -> dom (split_ev st') = dom (split_ev st).
Proof.
  intros H. apply process_row_effects in H as [H _].
  eapply appends_dom; eassumption.
Qed.

Lemma scan_dom events : forall st st',
  scan st events = Ok st' -> dom (split_ev st') = dom (split_ev st).
Proof.
  induction events as [|ev rest IH]; simpl; intros st st' H.
  - inversion H. reflexivity.
  - apply bind_Ok in H as (st1 & H1 & H).
    rewrite (IH _ _ H). eapply process_row_dom; eassumption.
Qed.

Lemma init_dom :
  dom (split_ev init_state) = list_to_set condition_names.
Proof.
  change (split_ev init_state) with init_split_ev.
  unfold init_split_ev. rewrite dom_list_to_map_L, map_map. reflexivity.
Qed.

(** ** Onsets and durations when the timestamps never decrease *)

Lemma event_ok_mono T T' bound e :
  (T <= T')%Q -> event_ok T bound e -> event_ok T' bound e.
Proof.
  intros HT (o & Ho & HoT & Hb & Hd). exists o.
  repeat split; auto. lra.
Qed.

Lemma onsets_ordered_snoc l e o :
  onsets_ordered l ->
  Event.time_s e = Some o ->
  Forall (fun a => exists oa, Event.time_s a = Some oa /\ (oa <= o)%Q) l ->
  onsets_ordered (l ++ [e]).
Proof.
  intros Hl He Hall i j a b Hij Ha Hb.
  assert (j < length (l ++ [e]))%nat as Hj by (eapply lookup_lt_Some; eauto).
  rewrite length_app in Hj. simpl in Hj.
  rewrite lookup_app_l in Ha by lia.
  destruct (decide (j < length l)%nat) as [Hlt|Hge].
  - rewrite lookup_app_l in Hb by lia. exact (Hl i j a b Hij Ha Hb).
  - assert (j = length l) as -> by lia.
    rewrite lookup_app_r in Hb by lia.
    rewrite Nat.sub_diag in Hb. simpl in Hb. injection Hb as <-.
    rewrite Forall_forall in Hall.
    destruct (Hall a) as (oa & Hoa & Hle).
    { eapply list_elem_of_lookup_2; eauto. }
    eauto.
Qed.

Lemma buckets_ok_mono T T' st m :
  (T <= T')%Q -> buckets_ok T st m -> buckets_ok T' st m.
Proof.
  intros HT Hb k l Hk. destruct (Hb k l Hk) as [HF HO]. split; [|exact HO].
  eapply Forall_impl; [exact HF|]. intros e. apply event_ok_mono; exact HT.
Qed.

Lemma vars_ok_mono T T' st :
  (T <= T')%Q -> vars_ok T st -> vars_ok T' st.
Proof. intros HT Hv s v Hs. specialize (Hv s v Hs). lra. Qed.

Lemma emit_var_ok t c bound l :
  bound = Some c -> (c <= t)%Q ->
  Forall (event_ok t bound) l ->
  event_ok t bound (Event.mk (Some c) (t - c) 1 (AmpNum 1)) /\
  Forall (fun a => exists oa, Event.time_s a = Some oa /\ (oa <= c)%Q) l.
Proof.
  intros -> Hct HF. split.
  - exists c. simpl. repeat split; [exact Hct| |lra].
    intros v Hv. injection Hv as <-. apply Qle_refl.
  - eapply Forall_impl; [exact HF|].
    intros a (oa & Hoa & _ & Hbound & _). exists oa. auto.
Qed.

Lemma emit_now_ok t amplitude l :
  Forall (event_ok t None) l ->
  event_ok t None (Event.mk (Some t) 0 1 amplitude) /\
  Forall (fun a => exists oa, Event.time_s a = Some oa /\ (oa <= t)%Q) l.
Proof.
  intros HF. split.
  - exists t. simpl. repeat split;
      [apply Qle_refl | discriminate | apply Qle_refl].
  - eapply Forall_impl; [exact HF|].
    intros a (oa & Hoa & HoT & _). eauto.
Qed.

(** An event that the row emits, appended to its bucket. *)
Lemma buckets_ok_append st ev m k l e :
  vars_ok (time_s ev) st ->
  buckets_ok (time_s ev) st m ->
  m !! k = Some l ->
  emits st ev k e ->
  buckets_ok (time_s ev) st (<[k := l ++ [e]]> m).
Proof.
  intros Hv Hb Hk He k' l' Hk'.
  destruct (decide (k = k')) as [<-|Hne].
  2: { rewrite lookup_insert_ne in Hk' by exact Hne. exact (Hb k' l' Hk'). }
  rewrite lookup_insert_eq in Hk'. injection Hk' as <-.
  destruct (Hb k l Hk) as [HF HO].
  assert (exists o, Event.time_s e = Some o /\
            event_ok (time_s ev) (source_var st (bucket_source k)) e /\
            Forall (fun a => exists oa, Event.time_s a = Some oa /\
                                        (oa <= o)%Q) l)
    as (o & Ho & Hok & Hall).
  { unfold emits in He.
    destruct (bucket_source k) eqn:Es.
    1-4: destruct He as (c & Hc & ->); exists c;
         (split; [reflexivity|]);
         apply emit_var_ok; [exact Hc | exact (Hv _ _ Hc) | exact HF].
    - subst e. exists (time_s ev). split; [reflexivity|].
      apply emit_now_ok. exact HF.
    - destruct He as (a0 & -> & _). exists (time_s ev).
      split; [reflexivity|]. apply emit_now_ok. exact HF. }
  split.
  - apply Forall_app. split; [exact HF|]. constructor; [exact Hok|constructor].
  - eapply onsets_ordered_snoc; eauto.
Qed.

Lemma buckets_ok_appends st ev m m' :
  vars_ok (time_s ev) st ->
  appends st ev m m' ->
  buckets_ok (time_s ev) st m ->
  buckets_ok (time_s ev) st m'.
Proof.
  intros Hv. induction 1 as [|m m' k l e Hk He _ IH]; [auto|].
  intros Hb. apply IH. eapply buckets_ok_append; eauto.
Qed.

(** The variables change after the events of the row were appended. *)
Lemma buckets_ok_vars T st st' m :
  (forall s, var_step T (source_var st s) (source_var st' s)) ->
  buckets_ok T st m -> buckets_ok T st' m.
Proof.
  intros Hs Hb k l Hk. destruct (Hb k l Hk) as [HF HO]. split; [|exact HO].
  eapply Forall_impl; [exact HF|].
  intros e (o & Ho & HoT & Hbound & Hd). exists o. repeat split; auto.
  intros v Hv. destruct (Hs (bucket_source k)) as [E|[E|E]];
    rewrite E in Hv.
  - auto.
  - discriminate.
  - injection Hv as <-. exact HoT.
Qed.

Lemma row_effects_vars st ev st' :
  row_effects st ev st' ->
  forall s, var_step (time_s ev) (source_var st s) (source_var st' s).
Proof.
  intros (_ & H1 & H2 & H3 & H4) s. destruct s; simpl; auto.
Qed.

Lemma timed_inv_step T st ev st' :
  timed_inv T st ->
  (T <= time_s ev)%Q ->
  process_row st ev = Ok st' ->
  timed_inv (time_s ev) st'.
Proof.
  intros [Hv Hb] HT H. apply process_row_effects in H.
  pose proof (row_effects_vars _ _ _ H) as Hs. destruct H as (Ha & _).
  apply (vars_ok_mono _ _ _ HT) in Hv.
  apply (buckets_ok_mono _ _ _ _ HT) in Hb.
  split.
  - intros s v Hsv. destruct (Hs s) as [E|[E|E]]; rewrite E in Hsv.
    + eauto.
    + discriminate.
    + injection Hsv as <-. apply Qle_refl.
  - eapply buckets_ok_vars; [exact Hs|].
    eapply buckets_ok_appends; eauto.
Qed.

Lemma timed_inv_scan events : forall T st st',
  timed_inv T st ->
  nondecreasing_from T events = true ->
  scan st events = Ok st' ->
  exists T', timed_inv T' st'.
Proof.
  induction events as [|ev rest IH]; simpl; intros T st st' Hi Hs H.
  - inversion H; subst. eauto.
  - apply bind_Ok in H as (st1 & H1 & H).
    apply andb_true_iff in Hs as [Hle Hs].
    apply Qle_bool_iff in Hle.
    eapply IH; [|exact Hs|exact H].
    eapply timed_inv_step; eauto.
Qed.

Lemma timed_inv_init T : timed_inv T init_state.
Proof.
  split.
  - intros s v. destruct s; discriminate.
  - intros k l Hk. simpl in Hk. unfold init_split_ev in Hk.
    apply elem_of_list_to_map_2 in Hk.
    apply list_elem_of_In, in_map_iff in Hk as (x & Hx & _).
    injection Hx as _ <-. split; [constructor|].
    intros i j a b _ Ha. rewrite lookup_nil in Ha. discriminate.
Qed.

(** ** Amplitudes *)

Lemma amp_ok_mono seen seen' k e :
  (forall r, In r seen -> In r seen') -> amp_ok seen k e -> amp_ok seen' k e.
Proof.
  unfold amp_ok. intros Hi. destruct (bucket_source k); auto.
  intros (r & Hr & Ha). eauto.
Qed.

Lemma emits_amp_ok st ev k e seen :
  In ev seen -> emits st ev k e -> amp_ok seen k e.
Proof.
  unfold emits, amp_ok. intros Hin.
  destruct (bucket_source k).
  1-4: intros (c & _ & ->); reflexivity.
  - intros ->. reflexivity.
  - intros (a & -> & Ha). simpl. eauto.
Qed.

Lemma buckets_amp_appends st ev seen m m' :
  In ev seen ->
  appends st ev m m' ->
  buckets_amp seen m -> buckets_amp seen m'.
Proof.
  intros Hin. induction 1 as [|m m' k l e Hk He _ IH]; [auto|].
  intros Hb. apply IH. intros k' l' Hk'.
  destruct (decide (k = k')) as [<-|Hne].
  - rewrite lookup_insert_eq in Hk'. injection Hk' as <-.
    apply Forall_app. split; [exact (Hb k l Hk)|].
    constructor; [|constructor]. eapply emits_amp_ok; eauto.
  - rewrite lookup_insert_ne in Hk' by exact Hne. exact (Hb k' l' Hk').
Qed.

Lemma buckets_amp_mono seen seen' m :
  (forall r, In r seen -> In r seen') ->
  buckets_amp seen m -> buckets_amp seen' m.
Proof.
  intros Hi Hb k l Hk. eapply Forall_impl; [exact (Hb k l Hk)|].
  intros e. apply amp_ok_mono. exact Hi.
Qed.

Lemma buckets_amp_scan events : forall seen st st',
  buckets_amp seen (split_ev st) ->
  scan st events = Ok st' ->
  buckets_amp (seen ++ events) (split_ev st').
Proof.
  induction events as [|ev rest IH]; simpl; intros seen st st' Hb H.
  - inversion H; subst. rewrite app_nil_r. exact Hb.
  - apply bind_Ok in H as (st1 & H1 & H).
    change (ev :: rest) with ([ev] ++ rest). rewrite app_assoc.
    apply (IH _ st1); [|exact H].
    apply process_row_effects in H1 as [Ha _].
    eapply buckets_amp_appends; [|exact Ha|].
    + apply in_or_app. right. left. reflexivity.
    + eapply buckets_amp_mono; [|exact Hb].
      intros r Hr. apply in_or_app. left. exact Hr.
Qed.

Lemma init_lookup k l : split_ev init_state !! k = Some l -> l = [].
Proof.
  simpl. unfold init_split_ev. intros Hk.
  apply elem_of_list_to_map_2 in Hk.
  apply list_elem_of_In, in_map_iff in Hk as (x & Hx & _).
  injection Hx as _ <-. reflexivity.
Qed.

Lemma buckets_amp_init : buckets_amp [] (split_ev init_state).
Proof. intros k l Hk. apply init_lookup in Hk as ->. constructor. Qed.

(** ** The log and its normalization *)

Lemma scan_app pre : forall st post,
  scan st (pre ++ post) = (st' <- scan st pre ;; scan st' post).
Proof.
  induction pre as [|ev pre IH]; simpl; intros st post; [reflexivity|].
  destruct (process_row st ev) as [st1|e]; simpl; [apply IH|reflexivity].
Qed.

Lemma nondecreasing_from_normalize s events : forall T,
  nondecreasing_from T events = true ->
  nondecreasing_from (T - s) (map (normalize s) events) = true.
Proof.
  induction events as [|ev rest IH]; simpl; intros T H; [reflexivity|].
  apply andb_true_iff in H as [Hle H]. apply andb_true_iff. split.
  - apply Qle_bool_iff in Hle. apply Qle_bool_iff. lra.
  - apply IH. exact H.
Qed.

Lemma last_row_Ok events ev :
  last_row events = Ok ev -> exists pre, events = pre ++ [ev].
Proof.
  unfold last_row. intros H.
  destruct events as [|r rest] using rev_ind; [discriminate|].
  rewrite map_app in H. simpl in H. rewrite last_last in H.
  inversion H; subst. eauto.
Qed.

Lemma last_row_snoc pre ev : last_row (pre ++ [ev]) = Ok ev.
Proof. unfold last_row. rewrite map_app. simpl. rewrite last_last. reflexivity. Qed.


(** Unpacking a call that returned. *)
Lemma process_events_Ok event_log TR in_nvols out end_time_s nvols :
  process_events event_log TR in_nvols = Ok (out, end_time_s, nvols) ->
  exists start_time_s st final,
    start_time event_log = Ok start_time_s /\
    scan init_state (map (normalize start_time_s) event_log) = Ok st /\
    last_row (map (normalize start_time_s) event_log) = Ok final /\
    Qeq_bool TR 0 = false /\
    end_time_s = py_min (last_correct_s st + 15) (time_s final) /\
    nvols = Z.min (py_int (end_time_s / TR)) in_nvols /\
    out = (map to_cevent) <$> split_ev st.
Proof.
  unfold process_events. intros H.
  apply bind_Ok in H as (s & Hs & H).
  apply bind_Ok in H as (st & Hst & H).
  apply bind_Ok in H as (final & Hf & H).
  apply bind_Ok in H as (q & Hq & H).
  unfold py_div in Hq. destruct (Qeq_bool TR 0) eqn:E; [discriminate|].
  inversion Hq; subst. inversion H; subst.
  exists s, st, final. repeat split; auto.
Qed.

(** ** The missing trigger *)

Lemma filter_no_trigger events :
  existsb is_trigger events = false -> List.filter is_trigger events = [].
Proof.
  induction events as [|r rest IH]; simpl; [reflexivity|].
  destruct (is_trigger r); simpl; [discriminate|exact IH].
Qed.

(** C9.  A log with no row whose event is 'MRI_Trigger' and whose info
    is 'Received' makes [process_events] raise (the [IndexError] of
    [mri_triggers.iloc[0]]): nothing is returned, neither buckets nor
    scalars. *)
Theorem missing_trigger_raises (event_log : list row) (TR : Q) (in_nvols : Z) :
  existsb is_trigger event_log = false ->
  process_events event_log TR in_nvols = Raise IndexError.
Proof.
  intros H. unfold process_events, start_time.
  rewrite filter_no_trigger by exact H. reflexivity.
Qed.

Lemma missing_trigger_raises_witness :
  existsb is_trigger log_no_trigger = false /\
  process_events log_no_trigger (25 # 10) 420 = Raise IndexError.
Proof.
  split; [reflexivity|].
  apply (missing_trigger_raises log_no_trigger (25 # 10) 420). reflexivity.
Defined.

(** ** The keys of the output *)

Lemma condition_names_NoDup : NoDup condition_names.
Proof. apply (bool_decide_unpack _). vm_compute. exact I. Qed.

(** C6.  When [process_events] returns, the keys of the output mapping
    are the sixteen condition names of the dict literal, each one bound
    (possibly to an empty list), and there is no other key. *)
Theorem output_keys (event_log : list row) (TR : Q) (in_nvols : Z)
    (out : gmap string (list cevent)) (end_time_s : Q) (nvols : Z) :
  process_events event_log TR in_nvols = Ok (out, end_time_s, nvols) ->
  (forall k, is_Some (out !! k) <-> In k condition_names) /\
  size out = 16%nat.
Proof.
  intros H.
  apply process_events_Ok in H as (s & st & final & _ & Hscan & _ & _ & _ & _ & ->).
  assert (dom ((map to_cevent) <$> split_ev st) =
          list_to_set (C := gset string) condition_names) as Hdom.
  { rewrite dom_fmap_L, (scan_dom _ _ _ Hscan). apply init_dom. }
  split.
  - intros k. rewrite <- elem_of_dom, Hdom, elem_of_list_to_set.
    apply list_elem_of_In.
  - rewrite <- size_dom, Hdom, size_list_to_set by apply condition_names_NoDup.
    reflexivity.
Qed.

Lemma output_keys_witness :
  exists out end_time_s nvols,
    process_events scenario_A (25 # 10) 420 = Ok (out, end_time_s, nvols) /\
    (forall k, is_Some (out !! k) <-> In k condition_names) /\
    size out = 16%nat.
Proof.
  destruct (returns_Ok (process_events scenario_A (25 # 10) 420))
    as ([[out e] v] & E); [vm_compute; reflexivity|].
  exists out, e, v. split; [exact E|].
  apply (output_keys scenario_A (25 # 10) 420 out e v). exact E.
Defined.

(** ** The usable-volume count *)









(** ** Durations, amplitudes and the order of the onsets *)

Lemma timed_inv_run event_log s st :
  nondecreasing event_log = true ->
  scan init_state (map (normalize s) event_log) = Ok st ->
  exists T, timed_inv T st.
Proof.
  destruct event_log as [|r rest]; simpl.
  - intros _ H. inversion H; subst. exists 0%Q. apply timed_inv_init.
  - intros Hs H.
    apply (timed_inv_scan (map (normalize s) (r :: rest))
             (time_s r - s)%Q init_state st).
    + apply timed_inv_init.
    + apply nondecreasing_from_normalize. simpl.
      rewrite Hs, andb_true_r. apply Qle_bool_iff, Qle_refl.
    + exact H.
Qed.

Lemma bucket_source_Reward (k : string) :
  bucket_source k = SrcReward <-> k = "Reward".
Proof.
  split.
  - unfold bucket_source.
    destruct (String.eqb k "Fixating"); [discriminate|].
    destruct (String.eqb k "FixationTask"); [discriminate|].
    destruct (String.eqb k "ResponseCues"); [discriminate|].
    destruct (String.eqb k "Reward") eqn:E.
    + intros _. apply String.eqb_eq. exact E.
    + destruct (String.prefix "Hand" k); discriminate.
  - intros ->. reflexivity.
Qed.

Lemma out_lookup_inv (st : state) (k : string) (l : list cevent) :
  ((map to_cevent) <$> split_ev st) !! k = Some l ->
  exists l0, split_ev st !! k = Some l0 /\ l = map to_cevent l0.
Proof.
  rewrite lookup_fmap. destruct (split_ev st !! k) as [l0|]; simpl.
  - intros H. inversion H. eauto.
  - discriminate.
Qed.

(** C7, as the code has it.  When [process_events] returns, an event of
    a bucket other than 'Reward' has amplitude 1, and an event of
    'Reward' has the payload of a reward row of the log as its
    amplitude, or 0.04 when the row is a ('Reward', 'Manual') row;
    every duration is at least 0 provided the timestamps of the rows
    never decrease along the log. *)
Theorem durations_and_amplitudes (event_log : list row) (TR : Q)
    (in_nvols : Z) (out : gmap string (list cevent)) (end_time_s : Q)
    (nvols : Z) (k : string) (l : list cevent) (c : cevent) :
  process_events event_log TR in_nvols = Ok (out, end_time_s, nvols) ->
  out !! k = Some l ->
  In c l ->
  (nondecreasing event_log = true -> (0 <= dur c)%Q) /\
  (k <> "Reward" -> amplitude c = AmpNum 1) /\
  (k = "Reward" ->
     exists r, In r event_log /\
       ((is_payload_reward r = true /\ amplitude c = AmpInfo (info r)) \/
        (is_legacy_manual r = true /\ amplitude c = AmpNum (4 # 100)))).
Proof.
  intros H Hk Hc.
  apply process_events_Ok in H
    as (s & st & final & _ & Hscan & _ & _ & _ & _ & ->).
  apply out_lookup_inv in Hk as (l0 & Hk & ->).
  apply in_map_iff in Hc as (e & <- & He).
  assert (amp_ok (map (normalize s) event_log) k e) as Hamp.
  { pose proof (buckets_amp_scan _ [] _ _ buckets_amp_init Hscan) as Hb.
    specialize (Hb k l0 Hk). rewrite Forall_forall in Hb.
    apply Hb, list_elem_of_In, He. }
  split; [|split].
  - intros Hs. destruct (timed_inv_run _ _ _ Hs Hscan) as (T & _ & Hb).
    destruct (Hb k l0 Hk) as [HF _]. rewrite Forall_forall in HF.
    destruct (HF e) as (o & _ & _ & _ & Hd); [apply list_elem_of_In, He|].
    exact Hd.
  - intros Hne. unfold amp_ok in Hamp.
    destruct (bucket_source k) eqn:Es; try exact Hamp.
    apply bucket_source_Reward in Es. contradiction.
  - intros ->. unfold amp_ok in Hamp. simpl in Hamp.
    destruct Hamp as (r' & Hr' & Ha).
    apply in_map_iff in Hr' as (r & <- & Hr).
    exists r. split; [exact Hr|]. exact Ha.
Qed.

Lemma durations_and_amplitudes_witness :
  exists out end_time_s nvols l c,
    process_events log_rewards (25 # 10) 420 = Ok (out, end_time_s, nvols) /\
    out !! "Reward" = Some l /\
    In c l /\
    (nondecreasing log_rewards = true -> (0 <= dur c)%Q) /\
    ("Reward" <> "Reward" -> amplitude c = AmpNum 1) /\
    ("Reward" = "Reward" ->
       exists r, In r log_rewards /\
         ((is_payload_reward r = true /\ amplitude c = AmpInfo (info r)) \/
          (is_legacy_manual r = true /\ amplitude c = AmpNum (4 # 100)))).
Proof.
  assert (out_lookup (process_events log_rewards (25 # 10) 420) "Reward"
          = Some [ mkCevent (Some (3 - 0)%Q) 0 (AmpInfo (Str "0.04"));
                   mkCevent (Some (4 - 0)%Q) 0 (AmpInfo (Str "0.08"));
                   mkCevent (Some (5 - 0)%Q) 0 (AmpNum (4 # 100)) ]) as Hl
    by (vm_compute; reflexivity).
  destruct (returns_Ok (process_events log_rewards (25 # 10) 420))
    as ([[out e] v] & E); [vm_compute; reflexivity|].
  rewrite E in Hl. cbn [out_lookup] in Hl.
  eexists out, e, v, _, _.
  split; [exact E|]. split; [exact Hl|]. split; [left; reflexivity|].
  eapply (durations_and_amplitudes log_rewards (25 # 10) 420 out e v
            "Reward"); [exact E | exact Hl | left; reflexivity].
Defined.

(** C7 as stated fails: the log closes at 3 s a fixation interval that it
    opened at 5 s, and the 'Fixating' event has the duration -2. *)
Lemma negative_duration :
  out_lookup (process_events log_fixation_backwards (25 # 10) 420) "Fixating"
    = Some [ mkCevent (Some (5 - 0)%Q) (3 - 0 - (5 - 0))%Q (AmpNum 1) ] /\
  ~ (0 <= 3 - 0 - (5 - 0))%Q.
Proof.
  split; [vm_compute; reflexivity|]. intros H. vm_compute in H.
  apply H. reflexivity.
Qed.

(** C8, as the code has it.  When the timestamps of the rows never
    decrease along the log and [process_events] returns, the onsets of
    every bucket never decrease in the order of the bucket. *)
Theorem onsets_nondecreasing (event_log : list row) (TR : Q)
    (in_nvols : Z) (out : gmap string (list cevent)) (end_time_s : Q)
    (nvols : Z) (k : string) (l : list cevent) (i j : nat) (a b : cevent) :
  nondecreasing event_log = true ->
  process_events event_log TR in_nvols = Ok (out, end_time_s, nvols) ->
  out !! k = Some l ->
  (i <= j)%nat -> l !! i = Some a -> l !! j = Some b ->
  exists ta tb, time a = Some ta /\ time b = Some tb /\ (ta <= tb)%Q.
Proof.
  intros Hs H Hk Hij Ha Hb.
  apply process_events_Ok in H
    as (s & st & final & _ & Hscan & _ & _ & _ & _ & ->).
  apply out_lookup_inv in Hk as (l0 & Hk & ->).
  rewrite list_lookup_fmap in Ha, Hb.
  destruct (l0 !! i) as [ea|] eqn:Ea; [|discriminate].
  destruct (l0 !! j) as [eb|] eqn:Eb; [|discriminate].
  simpl in Ha, Hb. inversion Ha; subst a. inversion Hb; subst b. simpl.
  destruct (timed_inv_run _ _ _ Hs Hscan) as (T & _ & Hbk).
  destruct (Hbk k l0 Hk) as [HF HO].
  destruct (decide (i = j)) as [->|Hne].
  - rewrite Ea in Eb. inversion Eb; subst eb.
    rewrite Forall_forall in HF.
    destruct (HF ea) as (o & Ho & _); [eapply list_elem_of_lookup_2; eauto|].
    exists o, o. repeat split; auto. apply Qle_refl.
  - apply (HO i j ea eb); [lia | exact Ea | exact Eb].
Qed.

Lemma onsets_nondecreasing_witness :
  exists out end_time_s nvols l a b,
    nondecreasing log_rewards = true /\
    process_events log_rewards (25 # 10) 420 = Ok (out, end_time_s, nvols) /\
    out !! "Reward" = Some l /\
    l !! 0%nat = Some a /\ l !! 1%nat = Some b /\
    exists ta tb, time a = Some ta /\ time b = Some tb /\ (ta <= tb)%Q.
Proof.
  assert (out_lookup (process_events log_rewards (25 # 10) 420) "Reward"
          = Some [ mkCevent (Some (3 - 0)%Q) 0 (AmpInfo (Str "0.04"));
                   mkCevent (Some (4 - 0)%Q) 0 (AmpInfo (Str "0.08"));
                   mkCevent (Some (5 - 0)%Q) 0 (AmpNum (4 # 100)) ]) as Hl
    by (vm_compute; reflexivity).
  destruct (returns_Ok (process_events log_rewards (25 # 10) 420))
    as ([[out e] v] & E); [vm_compute; reflexivity|].
  rewrite E in Hl. cbn [out_lookup] in Hl.
  eexists out, e, v, _, _, _.
  split; [reflexivity|]. split; [exact E|]. split; [exact Hl|].
  split; [reflexivity|]. split; [reflexivity|].
  eapply (onsets_nondecreasing log_rewards (25 # 10) 420 out e v "Reward"
            _ 0 1);
    [reflexivity | exact E | exact Hl | lia | reflexivity | reflexivity].
Defined.

(** C8 as stated fails: two reward rows, at 5 s and then at 3 s, give the
    'Reward' bucket the onsets 5 and 3 in this order. *)
Lemma onsets_decrease :
  out_lookup (process_events log_rewards_backwards (25 # 10) 420) "Reward"
    = Some [ mkCevent (Some (5 - 0)%Q) 0 (AmpInfo (Str "0.04"));
             mkCevent (Some (3 - 0)%Q) 0 (AmpInfo (Str "0.04")) ] /\
  ~ (5 - 0 <= 3 - 0)%Q.
Proof.
  split; [vm_compute; reflexivity|]. intros H. vm_compute in H.
  apply H. reflexivity.
Qed.

(** ** The end of the useful data *)

(** The first block of the loop body touches two variables only. *)
Lemma track_state_shape st ev :
  exists c b, track_state ev st = set_curve_switched b (set_curr_state c st).
Proof.
  unfold track_state. destruct st as [m lc tg so rs sw fo rc cs bf mr].
  destruct (cell_is (event ev) "NewState").
  - simpl. destruct (cell_is (info ev) "SWITCHED").
    + exists (Some (info ev)), true. reflexivity.
    + exists (Some (info ev)), sw. reflexivity.
  - exists cs, sw. reflexivity.
Qed.

(** Facts on the cells of a row, from the tests that the scan made. *)
Ltac cells :=
  repeat match goal with
  | H : _ && _ = true |- _ => apply andb_true_iff in H as [? ?]
  | H : negb _ = true |- _ => apply negb_true_iff in H
  | H : cell_is ?c ?s = true |- _ =>
      apply cell_is_eq in H; rewrite H in *; simpl in *
  end.


Lemma dispatch_postswitch st ev :
  is_postswitch ev = true -> dispatch ev st = trial_resolution ev st.
Proof.
  unfold is_postswitch, dispatch. intros H.
  apply andb_true_iff in H as [H Ht]. apply andb_true_iff in H as [He Hi].
  apply negb_true_iff in Ht. apply cell_is_eq in He, Hi.
  rewrite He, Hi, Ht. reflexivity.
Qed.








Example scenario_A_end_time :
  most_recent_correct (map (normalize 0) scenario_A) = (10 - 0)%Q /\
  out_end_time (process_events scenario_A (25 # 10) 420) = Some (10 - 0)%Q.
Proof. split; vm_compute; reflexivity. Qed.

Example scenario_E_end_time :
  correct_times init_state (map (normalize 0) scenario_E) = [] /\
  out_end_time (process_events scenario_E (25 # 10) 200) = Some 0%Q.
Proof. split; vm_compute; reflexivity. Qed.

(** ** A POSTFIXATION row without a recorded onset *)

(** A trial resolution changes the buckets and [last_correct_s] only. *)
Lemma trial_resolution_shape st ev st' :
  trial_resolution ev st = Ok st' ->
  exists m lc, st' = set_split_ev m (set_last_correct_s lc st).
Proof.
  unfold trial_resolution. intros H.
  apply bind_Ok in H as (known & _ & H).
  apply bind_Ok in H as (_ & _ & H).
  apply bind_Ok in H as (_ & _ & H).
  apply bind_Ok in H as (st1 & H1 & H).
  apply bind_Ok in H as ([k st2] & H2 & H). simpl in H.
  apply classify_Ok in H2 as [_ Hst2].
  destruct st as [m lc tg so rs sw fo rc cs bf mr].
  exec; destruct Hst2; simplify_eq; simpl; eauto.
Qed.

Lemma dispatch_fixation_stim_on st ev st' :
  dispatch ev st = Ok st' ->
  fixation_stim_on st' =
  if is_trial_end ev then None
  else if is_fixation_period ev then Some (time_s ev)
  else fixation_stim_on st.
Proof.
  unfold dispatch, is_trial_end, is_fixation_period. intros H.
  repeat match type of H with
  | (if ?b then _ else _) = Ok _ => destruct b eqn:?
  end.
  7: { apply trial_resolution_shape in H as (m & lc & ->). reflexivity. }
  all: exec; simplify_eq; simpl; try reflexivity.
  all: cells; rewrite ?andb_false_r; try reflexivity.
  all: destruct (cell_is (task ev) "Fixation"); reflexivity.
Qed.

Lemma process_row_fixation_stim_on st ev st' :
  process_row st ev = Ok st' ->
  fixation_stim_on st' =
  if is_trial_end ev then None
  else if is_fixation_period ev then Some (time_s ev)
  else fixation_stim_on st.
Proof.
  rewrite process_row_eq. destruct (cell_is (event ev) "Fixation") eqn:E.
  - intros H. unfold is_trial_end, is_fixation_period.
    apply cell_is_eq in E. unfold track_fixation in H. rewrite E in *.
    simpl in *. rewrite andb_false_r.
    exec; simplify_eq; reflexivity.
  - intros H. apply dispatch_fixation_stim_on in H.
    destruct (track_state_shape st ev) as (c & b & Ets).
    rewrite Ets in H. exact H.
Qed.

Lemma scan_fixation_stim_on events : forall st st' unset,
  (unset = true -> fixation_stim_on st = None) ->
  scan st events = Ok st' ->
  fixation_onset_missing unset events = true ->
  fixation_stim_on st' = None.
Proof.
  induction events as [|ev rest IH]; simpl; intros st st' unset Hu H Hm.
  - inversion H; subst. auto.
  - apply bind_Ok in H as (st1 & H1 & H).
    apply (IH st1 st' _) in Hm; [exact Hm| |exact H].
    rewrite (process_row_fixation_stim_on _ _ _ H1).
    destruct (is_trial_end ev); [reflexivity|].
    destruct (is_fixation_period ev); [discriminate|]. exact Hu.
Qed.

Lemma fixation_onset_missing_normalize s events : forall unset,
  fixation_onset_missing unset (map (normalize s) events) =
  fixation_onset_missing unset events.
Proof.
  induction events as [|ev rest IH]; simpl; intros unset; [reflexivity|].
  apply IH.
Qed.

Lemma scan_Raise_app pre post st e :
  scan st pre = Raise e -> scan st (pre ++ post) = Raise e.
Proof. intros H. rewrite scan_app, H. reflexivity. Qed.

Lemma lookup_condition (st : state) (k : string) :
  dom (split_ev st) = list_to_set condition_names ->
  In k condition_names ->
  exists l, split_ev st !! k = Some l.
Proof.
  intros Hd Hk. apply (elem_of_dom (D := gset string)).
  rewrite Hd. apply elem_of_list_to_set, list_elem_of_In. exact Hk.
Qed.

Lemma scan_init_dom events st :
  scan init_state events = Ok st ->
  dom (split_ev st) = list_to_set condition_names.
Proof. intros H. rewrite (scan_dom _ _ _ H). apply init_dom. Qed.

(** The row itself: with [fixation_stim_on] unset, the subtraction in
    [Event] raises. *)
Lemma process_row_postfixation st ev :
  is_postfixation ev = true ->
  fixation_stim_on st = None ->
  dom (split_ev st) = list_to_set condition_names ->
  process_row st ev = Raise TypeError.
Proof.
  intros Hp Hf Hd. rewrite process_row_eq.
  unfold is_postfixation in Hp.
  apply andb_true_iff in Hp as [Hp Hi]. apply andb_true_iff in Hp as [Ht He].
  apply cell_is_eq in Ht, He, Hi.
  rewrite He. simpl.
  destruct (track_state_shape st ev) as (c & b & ->).
  unfold dispatch. rewrite Ht, He, Hi. simpl.
  unfold append_event. simpl.
  destruct (lookup_condition st "FixationTask" Hd) as (l & ->).
  { simpl. tauto. }
  rewrite Hf. reflexivity.
Qed.

(** C10.  When a POSTFIXATION row of the fixation task comes while no
    onset of the fixation period is recorded (no FIXATION_PERIOD row of
    the fixation task since the start of the log or since the last
    TRIAL_END row), [process_events] returns nothing; and when the rows
    before it are processed without an error, what it raises is the
    [TypeError] of the subtraction [stop_s - start_s] with [start_s]
    being [None]: no 'FixationTask' event, no assertion message. *)
Theorem postfixation_without_onset (pre post : list row) (ev : row)
    (TR : Q) (in_nvols : Z) :
  is_postfixation ev = true ->
  fixation_onset_missing true pre = true ->
  (exists e, process_events (pre ++ ev :: post) TR in_nvols = Raise e) /\
  (forall start_time_s st,
     start_time (pre ++ ev :: post) = Ok start_time_s ->
     scan init_state (map (normalize start_time_s) pre) = Ok st ->
     process_events (pre ++ ev :: post) TR in_nvols = Raise TypeError).
Proof.
  intros Hp Hm.
  assert (forall s st,
            start_time (pre ++ ev :: post) = Ok s ->
            scan init_state (map (normalize s) pre) = Ok st ->
            process_events (pre ++ ev :: post) TR in_nvols = Raise TypeError)
    as Hmain.
  { intros s st Hs Hscan. unfold process_events. rewrite Hs. simpl.
    rewrite map_app. simpl. rewrite scan_app, Hscan. simpl.
    rewrite (process_row_postfixation st (normalize s ev)).
    - reflexivity.
    - exact Hp.
    - apply (scan_fixation_stim_on (map (normalize s) pre) init_state st true);
        [reflexivity | exact Hscan |].
      rewrite fixation_onset_missing_normalize. exact Hm.
    - apply (scan_init_dom _ _ Hscan). }
  split; [|exact Hmain].
  destruct (start_time (pre ++ ev :: post)) as [s|e] eqn:Hs.
  - destruct (scan init_state (map (normalize s) pre)) as [st|e] eqn:Hscan.
    + exists TypeError. eapply Hmain; eauto.
    + exists e. unfold process_events. rewrite Hs. simpl.
      rewrite map_app, (scan_Raise_app _ _ _ _ Hscan). reflexivity.
  - exists e. unfold process_events. rewrite Hs. reflexivity.
Qed.

Lemma postfixation_without_onset_witness :
  is_postfixation (R "Fixation" "NewState" "POSTFIXATION" 4) = true /\
  fixation_onset_missing true
    [R "Fixation" "MRI_Trigger" "Received" 0] = true /\
  process_events log_postfixation_first (25 # 10) 420 = Raise TypeError.
Proof.
  split; [reflexivity|]. split; [reflexivity|].
  destruct (returns_Ok (scan init_state
              (map (normalize 0) [R "Fixation" "MRI_Trigger" "Received" 0])))
    as (st & E); [vm_compute; reflexivity|].
  apply (proj2 (postfixation_without_onset
                  [R "Fixation" "MRI_Trigger" "Received" 0] []
                  (R "Fixation" "NewState" "POSTFIXATION" 4) (25 # 10) 420
                  eq_refl eq_refl) 0%Q st eq_refl E).
Defined.

(** ** Both encodings of a manual reward in one log *)

(** C2, the order that the code misses.  A log with a ('Reward',
    'Manual') row and, after it, a 'ManualReward' row has both encodings;
    [process_events] returns, with one 'Reward' event for each. *)
Theorem legacy_then_manual_accepted :
  existsb is_ManualReward log_legacy_then_manual = true /\
  existsb is_legacy_manual log_legacy_then_manual = true /\
  returns (process_events log_legacy_then_manual (25 # 10) 420) = true /\
  out_lookup (process_events log_legacy_then_manual (25 # 10) 420) "Reward"
    = Some [ mkCevent (Some (1 - 0)%Q) 0 (AmpNum (4 # 100));
             mkCevent (Some (2 - 0)%Q) 0 (AmpInfo (Str "0.04")) ].
Proof. repeat split; vm_compute; reflexivity. Qed.

(** The order that the code catches. *)
Example manual_then_legacy_raises :
  process_events log_manual_then_legacy (25 # 10) 420
  = Raise conflicting_encoding.
Proof. vm_compute. reflexivity. Qed.

(** ** The outcome of a trial *)

Lemma classify_outcome ev st :
  classify ev st =
  match outcome_bucket st with
  | Some b =>
      Ok (b, if is_not_correct b then st
             else set_last_correct_s (time_s ev) st)
  | None =>
      Raise (AssertionError
               (Some ("Unhandled curve_response " +:+
                      str_of_var (curve_response st))))
  end.
Proof.
  unfold classify, outcome_bucket. simpl.
  destruct (curve_response st) as [[|r]|] eqn:Er; simpl.
  - reflexivity.
  - destruct (String.eqb r "CORRECT") eqn:E1.
    { apply String.eqb_eq in E1. subst r. reflexivity. }
    destruct (String.eqb r "INCORRECT") eqn:E2; [reflexivity|].
    destruct (String.eqb r "FixationBreak") eqn:E3; [reflexivity|].
    reflexivity.
  - destruct (curve_switched st); reflexivity.
Qed.

(** The bucket of an outcome is none of the three other buckets that a
    trial resolution appends to. *)
Lemma outcome_bucket_other st b :
  outcome_bucket st = Some b ->
  b <> "PreSwitchCurves" /\ b <> "ResponseCues" /\ b <> "CurveNotCOR".
Proof.
  unfold outcome_bucket.
  destruct (curve_response st) as [c|].
  - destruct (cell_is c "CORRECT").
    { intros H. inversion H. repeat split; discriminate. }
    destruct (cell_is c "INCORRECT").
    { intros H. inversion H. repeat split; discriminate. }
    destruct (cell_is c "FixationBreak"); [|discriminate].
    intros H. inversion H. repeat split; discriminate.
  - destruct (curve_switched st); intros H; inversion H;
      repeat split; discriminate.
Qed.

Lemma append_span st k l c t :
  split_ev st !! k = Some l ->
  append_event k (Event.span (Some c) t) st =
  Ok (set_split_ev
        (<[k := l ++ [Event.mk (Some c) (t - c) 1 (AmpNum 1)]]> (split_ev st))
        st).
Proof. intros H. unfold append_event. rewrite H. reflexivity. Qed.

Lemma process_row_postswitch st ev :
  is_postswitch ev = true ->
  process_row st ev =
  trial_resolution ev (set_curr_state (Some (info ev)) st).
Proof.
  intros Hp. rewrite process_row_eq.
  pose proof Hp as Hp'. unfold is_postswitch in Hp'.
  apply andb_true_iff in Hp' as [H _]. apply andb_true_iff in H as [He Hi].
  apply cell_is_eq in He, Hi.
  rewrite He. simpl.
  rewrite dispatch_postswitch by exact Hp.
  unfold track_state. rewrite He, Hi. reflexivity.
Qed.

Lemma trial_resolution_outcome (st : state) (ev : row) (t0 : Q) :
  known_task (task ev) = Ok true ->
  curve_stim_on st = Some t0 ->
  dom (split_ev st) = list_to_set condition_names ->
  match outcome_bucket st with
  | None =>
      trial_resolution ev st =
      Raise (AssertionError
               (Some ("Unhandled curve_response " +:+
                      str_of_var (curve_response st))))
  | Some b =>
      match split_ev st !! b with
      | None => trial_resolution ev st = Raise (KeyError b)
      | Some l =>
          exists st',
            trial_resolution ev st = Ok st' /\
            split_ev st' !! b = Some (l ++ [trial_event t0 ev]) /\
            split_ev st' !! "CurveNotCOR" =
              (if is_not_correct b
               then (fun l' => l' ++ [trial_event t0 ev]) <$>
                      split_ev st !! "CurveNotCOR"
               else split_ev st !! "CurveNotCOR") /\
            (forall k, k <> b -> k <> "CurveNotCOR" ->
                       k <> "PreSwitchCurves" -> k <> "ResponseCues" ->
                       split_ev st' !! k = split_ev st !! k)
      end
  end.
Proof.
  intros Hknown Hstim Hdom.
  destruct (lookup_condition st "PreSwitchCurves" Hdom) as (lps & Hps);
    [simpl; tauto|].
  destruct (lookup_condition st "CurveNotCOR" Hdom) as (lnc & Hnc);
    [simpl; tauto|].
  destruct (lookup_condition st "ResponseCues" Hdom) as (lrc & Hrc);
    [simpl; tauto|].
  unfold trial_resolution. rewrite Hknown. simpl.
  rewrite Hstim. rewrite bool_decide_true by eauto. simpl.
  rewrite (append_span st "PreSwitchCurves" lps t0 (time_s ev) Hps). simpl.
  rewrite classify_outcome.
  change (outcome_bucket (set_split_ev _ st)) with (outcome_bucket st).
  change (curve_response (set_split_ev _ st)) with (curve_response st).
  destruct (outcome_bucket st) as [b|] eqn:Eb; [|reflexivity].
  destruct (outcome_bucket_other st b Eb) as (Hb1 & Hb2 & Hb3).
  simpl.
  destruct (split_ev st !! b) as [l|] eqn:El.
  2: { unfold append_event.
       destruct (is_not_correct b); simpl;
         rewrite lookup_insert_ne by auto; rewrite El; reflexivity. }
  assert ("CurveNotCOR" <> "PreSwitchCurves") as N1 by discriminate.
  assert ("ResponseCues" <> "PreSwitchCurves") as N2 by discriminate.
  assert ("ResponseCues" <> "CurveNotCOR") as N3 by discriminate.
  pose proof Hb1 as Hb1'. pose proof Hb2 as Hb2'. pose proof Hb3 as Hb3'.
  apply not_eq_sym in Hb1', Hb2', Hb3'.
  fold (trial_event t0 ev).
  destruct (is_not_correct b) eqn:Enc;
    cbn [curve_stim_on response_cues_on set_split_ev set_last_correct_s
         fst snd];
    rewrite ?Hstim;
    (rewrite (append_span _ b l t0 (time_s ev))
       by (simpl; rewrite lookup_insert_ne by auto; exact El));
    unfold is_not_correct in Enc; rewrite Enc;
    cbn [curve_stim_on response_cues_on set_split_ev set_last_correct_s
         bind split_ev];
    rewrite ?Hstim.
  - rewrite (append_span _ "CurveNotCOR" lnc t0 (time_s ev))
      by (simpl; rewrite !lookup_insert_ne by auto; exact Hnc).
    cbn [curve_stim_on response_cues_on set_split_ev set_last_correct_s
         bind split_ev].
    destruct (response_cues_on st) as [rc|] eqn:Erc.
    + rewrite (append_span _ "ResponseCues" lrc rc (time_s ev))
        by (simpl; rewrite !lookup_insert_ne by auto; exact Hrc).
      eexists. split; [reflexivity|]. simpl. fold (trial_event t0 ev).
      split; [|split].
      * rewrite !lookup_insert_ne by auto. apply lookup_insert_eq.
      * rewrite lookup_insert_ne by auto. rewrite lookup_insert_eq, Hnc.
        reflexivity.
      * intros k K1 K2 K3 K4. rewrite !lookup_insert_ne by auto. reflexivity.
    + eexists. split; [reflexivity|]. simpl. fold (trial_event t0 ev).
      split; [|split].
      * rewrite !lookup_insert_ne by auto. apply lookup_insert_eq.
      * rewrite lookup_insert_eq, Hnc. reflexivity.
      * intros k K1 K2 K3 K4. rewrite !lookup_insert_ne by auto. reflexivity.
  - destruct (response_cues_on st) as [rc|] eqn:Erc.
    + rewrite (append_span _ "ResponseCues" lrc rc (time_s ev))
        by (simpl; rewrite !lookup_insert_ne by auto; exact Hrc).
      eexists. split; [reflexivity|]. simpl. fold (trial_event t0 ev).
      split; [|split].
      * rewrite !lookup_insert_ne by auto. apply lookup_insert_eq.
      * rewrite !lookup_insert_ne by auto. reflexivity.
      * intros k K1 K2 K3 K4. rewrite !lookup_insert_ne by auto. reflexivity.
    + eexists. split; [reflexivity|]. simpl. fold (trial_event t0 ev).
      split; [|split].
      * apply lookup_insert_eq.
      * rewrite !lookup_insert_ne by auto. reflexivity.
      * intros k K1 K2 K3 K4. rewrite !lookup_insert_ne by auto. reflexivity.
Qed.

(** C1, as the code has it.  At a POSTSWITCH row of a task other than
    the fixation task whose task label is one of the known ones, met
    with a stimulus onset recorded: the outcome is the one that the
    latched response and the switched flag give; a latched response
    other than 'CORRECT', 'INCORRECT' and 'FixationBreak' is fatal; a
    correct trial whose target names no bucket is fatal too; otherwise
    one event that spans the stimulus onset and the row is appended to
    the bucket of the outcome, the same event is appended to
    'CurveNotCOR' for a false hit, a missing response or a fixation
    break and 'CurveNotCOR' is left alone for a correct trial, and the
    buckets of the other outcomes are left alone. *)
Theorem trial_outcome (st : state) (ev : row) (t0 : Q) :
  is_postswitch ev = true ->
  known_task (task ev) = Ok true ->
  curve_stim_on st = Some t0 ->
  dom (split_ev st) = list_to_set condition_names ->
  match outcome_bucket st with
  | None =>
      process_row st ev =
      Raise (AssertionError
               (Some ("Unhandled curve_response " +:+
                      str_of_var (curve_response st))))
  | Some b =>
      match split_ev st !! b with
      | None => process_row st ev = Raise (KeyError b)
      | Some l =>
          exists st',
            process_row st ev = Ok st' /\
            split_ev st' !! b = Some (l ++ [trial_event t0 ev]) /\
            split_ev st' !! "CurveNotCOR" =
              (if is_not_correct b
               then (fun l' => l' ++ [trial_event t0 ev]) <$>
                      split_ev st !! "CurveNotCOR"
               else split_ev st !! "CurveNotCOR") /\
            (forall k, k <> b -> k <> "CurveNotCOR" ->
                       k <> "PreSwitchCurves" -> k <> "ResponseCues" ->
                       split_ev st' !! k = split_ev st !! k)
      end
  end.
Proof.
  intros Hp Hk Hs Hd. rewrite (process_row_postswitch st ev Hp).
  exact (trial_resolution_outcome
           (set_curr_state (Some (info ev)) st) ev t0 Hk Hs Hd).
Qed.

Lemma trial_outcome_witness :
  is_postswitch row_postswitch = true /\
  known_task (task row_postswitch) = Ok true /\
  curve_stim_on st_correct_trial = Some 5%Q /\
  dom (split_ev st_correct_trial) = list_to_set condition_names /\
  match outcome_bucket st_correct_trial with
  | None =>
      process_row st_correct_trial row_postswitch =
      Raise (AssertionError
               (Some ("Unhandled curve_response " +:+
                      str_of_var (curve_response st_correct_trial))))
  | Some b =>
      match split_ev st_correct_trial !! b with
      | None => process_row st_correct_trial row_postswitch = Raise (KeyError b)
      | Some l =>
          exists st',
            process_row st_correct_trial row_postswitch = Ok st' /\
            split_ev st' !! b = Some (l ++ [trial_event 5 row_postswitch]) /\
            split_ev st' !! "CurveNotCOR" =
              (if is_not_correct b
               then (fun l' => l' ++ [trial_event 5 row_postswitch]) <$>
                      split_ev st_correct_trial !! "CurveNotCOR"
               else split_ev st_correct_trial !! "CurveNotCOR") /\
            (forall k, k <> b -> k <> "CurveNotCOR" ->
                       k <> "PreSwitchCurves" -> k <> "ResponseCues" ->
                       split_ev st' !! k = split_ev st_correct_trial !! k)
      end
  end.
Proof.
  split; [reflexivity|]. split; [reflexivity|]. split; [reflexivity|].
  split; [exact init_dom|].
  apply (trial_outcome st_correct_trial row_postswitch 5);
    [reflexivity | reflexivity | reflexivity | exact init_dom].
Defined.

(** C1 as stated fails.  The trial of the first log, correct on target
    UL with its stimulus onset recorded, is closed by a POSTSWITCH row of
    the task 'Foo': the assertion on the task label fails and nothing is
    classified.  The trial of the second log is correct on the target
    'XX': there is no bucket 'AttendXX_COR'. *)
Lemma postswitch_not_classified :
  is_postswitch (R "Foo" "NewState" "POSTSWITCH" 10) = true /\
  curve_stim_on <$> state_after (map (normalize 0) (take 4 log_unknown_task))
    = Some (Some (5 - 0)%Q) /\
  curve_response <$> state_after (map (normalize 0) (take 4 log_unknown_task))
    = Some (Some (Str "CORRECT")) /\
  process_events log_unknown_task (25 # 10) 420
    = Raise (AssertionError (Some "Unknown event task Foo")) /\
  process_events log_unknown_target (25 # 10) 420
    = Raise (KeyError "AttendXX_COR").
Proof. repeat split; vm_compute; reflexivity. Qed.

Example scenario_B_false_hit :
  out_lookup (process_events scenario_B (25 # 10) 420) "CurveFalseHit"
    = Some [ mkCevent (Some (5 - 0)%Q) (10 - 0 - (5 - 0))%Q (AmpNum 1) ] /\
  out_lookup (process_events scenario_B (25 # 10) 420) "CurveNotCOR"
    = Some [ mkCevent (Some (5 - 0)%Q) (10 - 0 - (5 - 0))%Q (AmpNum 1) ] /\
  out_lookup (process_events scenario_B (25 # 10) 420) "AttendUL_COR"
    = Some [].
Proof. repeat split; vm_compute; reflexivity. Qed.

Example scenario_E_fixation_break :
  out_lookup (process_events scenario_E (25 # 10) 200) "CurveFixationBreak"
    = Some [ mkCevent (Some (5 - 0)%Q) (10 - 0 - (5 - 0))%Q (AmpNum 1) ] /\
  out_lookup (process_events scenario_E (25 # 10) 200) "CurveNotCOR"
    = Some [ mkCevent (Some (5 - 0)%Q) (10 - 0 - (5 - 0))%Q (AmpNum 1) ].
Proof. repeat split; vm_compute; reflexivity. Qed.

(** * Further properties of the scan *)

(** ** Buckets only grow *)

Lemma extends_refl m : extends m m.
Proof. intros k l H. exists []. rewrite app_nil_r. exact H. Qed.

Lemma extends_trans m1 m2 m3 : extends m1 m2 -> extends m2 m3 -> extends m1 m3.
Proof.
  intros H12 H23 k l H. destruct (H12 k l H) as (l1 & H1).
  destruct (H23 k _ H1) as (l2 & H2). exists (l1 ++ l2).
  rewrite H2, app_assoc. reflexivity.
Qed.

Lemma appends_extends st ev m m' : appends st ev m m' -> extends m m'.
Proof.
  induction 1 as [|m m' k l e Hk _ _ IH]; [apply extends_refl|].
  eapply extends_trans; [|exact IH].
  intros k' l' Hk'. destruct (decide (k = k')) as [<-|Hne].
  - rewrite Hk in Hk'. inversion Hk'; subst. exists [e].
    apply lookup_insert_eq.
  - exists []. rewrite lookup_insert_ne, app_nil_r by exact Hne. exact Hk'.
Qed.

(** X1.  The scan never removes or reorders an event: whatever rows it
    reads, the list of every bucket before them is a prefix of the list
    of that bucket after them. *)
Theorem scan_extends (events : list row) (st st' : state) :
  scan st events = Ok st' -> extends (split_ev st) (split_ev st').
Proof.
  revert st. induction events as [|ev rest IH]; simpl; intros st H.
  - inversion H; subst. apply extends_refl.
  - apply bind_Ok in H as (st1 & H1 & H).
    eapply extends_trans; [|exact (IH _ H)].
    apply process_row_effects in H1 as [Ha _].
    eapply appends_extends; exact Ha.
Qed.

Lemma scan_extends_witness :
  exists st',
    scan st_correct_trial [row_postswitch] = Ok st' /\
    extends (split_ev st_correct_trial) (split_ev st').
Proof.
  destruct (returns_Ok (scan st_correct_trial [row_postswitch]))
    as (st' & E); [vm_compute; reflexivity|].
  exists st'. split; [exact E|].
  apply (scan_extends [row_postswitch] st_correct_trial st'). exact E.
Defined.

(** ** Counting trials *)

Lemma Hand_not_curve x k :
  bucket_source k = SrcCurve -> "Hand" +:+ x <> k.
Proof. intros Hk <-. rewrite bucket_source_Hand in Hk. discriminate. Qed.

Lemma literal_not_curve k0 k :
  bucket_source k0 <> SrcCurve -> bucket_source k = SrcCurve -> k0 <> k.
Proof. intros H0 Hk <-. contradiction. Qed.

(** Only a trial resolution touches the buckets whose onsets come from
    [curve_stim_on]. *)
Lemma process_row_keeps_curve st ev st' k :
  is_postswitch ev = false ->
  process_row st ev = Ok st' ->
  bucket_source k = SrcCurve ->
  split_ev st' !! k = split_ev st !! k.
Proof.
  intros Hp H Hk. rewrite process_row_eq in H.
  destruct (cell_is (event ev) "Fixation") eqn:E.
  - unfold track_fixation in H. rewrite E in H.
    exec; simplify_eq; simpl; try reflexivity.
    apply lookup_insert_ne, literal_not_curve; [discriminate|exact Hk].
  - rewrite <- (track_state_split_ev st ev).
    revert H. generalize (track_state ev st). clear st. intros st H.
    unfold dispatch in H. unfold is_postswitch in Hp.
    repeat match type of H with
    | (if ?b then _ else _) = Ok _ => destruct b eqn:?
    end.
    7: congruence.
    all: exec; simplify_eq; simpl; try reflexivity.
    all: apply lookup_insert_ne.
    all: first [ apply Hand_not_curve; exact Hk
               | apply literal_not_curve; [discriminate|exact Hk] ].
Qed.

Lemma trial_resolution_Ok_inv st ev st' :
  trial_resolution ev st = Ok st' ->
  exists t0, known_task (task ev) = Ok true /\ curve_stim_on st = Some t0.
Proof.
  unfold trial_resolution. intros H.
  apply bind_Ok in H as (known & Hk & H).
  apply bind_Ok in H as (u1 & H1 & H).
  apply bind_Ok in H as (u2 & H2 & _).
  apply py_assert_Ok in H1, H2. subst known.
  apply bool_decide_eq_true_1 in H2 as (t0 & Ht0). eauto.
Qed.

Lemma classify_Ok_bucket ev st k st2 :
  classify ev st = Ok (k, st2) -> outcome_bucket st = Some k.
Proof.
  rewrite classify_outcome. destruct (outcome_bucket st); [|discriminate].
  intros H. inversion H. reflexivity.
Qed.

Lemma bucket_len_insert {A : Type} (m : gmap string (list A)) k l x :
  m !! k = Some l ->
  bucket_len (<[k := l ++ [x]]> m) k = S (bucket_len m k).
Proof.
  intros H. unfold bucket_len. rewrite lookup_insert_eq, H, length_app.
  simpl. lia.
Qed.

Lemma bucket_len_insert_ne {A : Type} (m : gmap string (list A)) k k' l :
  k <> k' -> bucket_len (<[k := l]> m) k' = bucket_len m k'.
Proof. intros H. unfold bucket_len. rewrite lookup_insert_ne by exact H. reflexivity. Qed.

Lemma trial_resolution_preswitch st ev st' :
  trial_resolution ev st = Ok st' ->
  bucket_len (split_ev st') "PreSwitchCurves" =
  S (bucket_len (split_ev st) "PreSwitchCurves").
Proof.
  unfold trial_resolution. intros H.
  apply bind_Ok in H as (known & _ & H).
  apply bind_Ok in H as (_ & _ & H).
  apply bind_Ok in H as (_ & _ & H).
  apply bind_Ok in H as (st1 & H1 & H).
  apply bind_Ok in H as ([k st2] & H2 & H). simpl in H.
  pose proof (classify_Ok_bucket _ _ _ _ H2) as Hb.
  apply outcome_bucket_other in Hb as (Hb1 & _ & _).
  apply classify_Ok in H2 as [_ Hst2].
  apply append_event_Ok in H1 as (lps & x & Hps & _ & ->).
  exec; destruct Hst2; simplify_eq; simpl in *.
  all: rewrite ?bucket_len_insert_ne by (auto; discriminate).
  all: apply bucket_len_insert; exact Hps.
Qed.

Lemma attend_in_outcome_names x :
  In ("Attend" +:+ x) condition_names -> In ("Attend" +:+ x) outcome_names.
Proof.
  simpl. intros H.
  repeat (destruct H as [H|H]; [first [discriminate H | auto 10]|]).
  contradiction.
Qed.

Lemma outcome_bucket_in_names st b :
  outcome_bucket st = Some b ->
  is_Some (split_ev st !! b) ->
  dom (split_ev st) = list_to_set condition_names ->
  In b outcome_names.
Proof.
  unfold outcome_bucket. intros H Hl Hd.
  destruct (curve_response st) as [c|].
  - destruct (cell_is c "CORRECT").
    { inversion H; subst. apply attend_in_outcome_names.
      apply list_elem_of_In, (elem_of_list_to_set (C := gset string)).
      rewrite <- Hd. apply elem_of_dom. exact Hl. }
    destruct (cell_is c "INCORRECT").
    { inversion H. simpl. auto 10. }
    destruct (cell_is c "FixationBreak"); [|discriminate].
    inversion H. simpl. auto 10.
  - destruct (curve_switched st); inversion H; simpl; auto 10.
Qed.

Lemma outcome_names_other k :
  In k outcome_names ->
  k <> "CurveNotCOR" /\ k <> "PreSwitchCurves" /\ k <> "ResponseCues".
Proof.
  simpl. intros H.
  repeat (destruct H as [H|H]; [subst k; repeat split; discriminate|]).
  contradiction.
Qed.

(** What a trial resolution does to the counts. *)
Lemma process_row_postswitch_counts st ev st' :
  is_postswitch ev = true ->
  dom (split_ev st) = list_to_set condition_names ->
  process_row st ev = Ok st' ->
  exists b,
    In b outcome_names /\
    bucket_len (split_ev st') "PreSwitchCurves" =
      S (bucket_len (split_ev st) "PreSwitchCurves") /\
    bucket_len (split_ev st') "CurveNotCOR" =
      (bucket_len (split_ev st) "CurveNotCOR" +
       if is_not_correct b then 1 else 0)%nat /\
    (forall k, In k outcome_names ->
       bucket_len (split_ev st') k =
       (bucket_len (split_ev st) k + if String.eqb k b then 1 else 0)%nat).
Proof.
  intros Hp Hd H. rewrite (process_row_postswitch st ev Hp) in H.
  set (st0 := set_curr_state (Some (info ev)) st) in *.
  change (split_ev st) with (split_ev st0) in Hd |- *.
  clearbody st0. clear st.
  pose proof (trial_resolution_preswitch _ _ _ H) as Hps.
  destruct (trial_resolution_Ok_inv _ _ _ H) as (t0 & Hk & Hs).
  pose proof (trial_resolution_outcome st0 ev t0 Hk Hs Hd) as Ho.
  destruct (outcome_bucket st0) as [b|] eqn:Eb; [|congruence].
  destruct (split_ev st0 !! b) as [l|] eqn:El; [|congruence].
  destruct Ho as (st'' & H' & Hb & Hnc & Hother).
  assert (st'' = st') as -> by congruence.
  exists b. split; [|split; [exact Hps|split]].
  - eapply outcome_bucket_in_names; eauto.
  - unfold bucket_len. rewrite Hnc.
    destruct (lookup_condition st0 "CurveNotCOR" Hd) as (lnc & ->);
      [simpl; tauto|].
    destruct (is_not_correct b); simpl; rewrite ?length_app; simpl; lia.
  - intros k Hkin. destruct (String.eqb k b) eqn:Ekb.
    + apply String.eqb_eq in Ekb. subst k. unfold bucket_len.
      rewrite Hb, El, length_app. simpl. lia.
    + apply String.eqb_neq in Ekb.
      destruct (outcome_names_other k Hkin) as (K1 & K2 & K3).
      unfold bucket_len. rewrite (Hother k Ekb K1 K2 K3). lia.
Qed.

Lemma sum_len_step {A : Type} (m m' : gmap string (list A)) b keys :
  NoDup keys ->
  (forall k, In k keys ->
     bucket_len m' k =
     (bucket_len m k + if String.eqb k b then 1 else 0)%nat) ->
  sum_len m' keys =
  (sum_len m keys + if existsb (String.eqb b) keys then 1 else 0)%nat.
Proof.
  unfold sum_len. induction keys as [|k keys IH]; simpl; intros Hnd Hk.
  - reflexivity.
  - apply NoDup_cons in Hnd as [Hnotin Hnd].
    rewrite (Hk k) by (left; reflexivity).
    rewrite IH by (auto; intros; apply Hk; right; assumption).
    rewrite (String.eqb_sym b k).
    destruct (String.eqb k b) eqn:E; simpl; [|lia].
    apply String.eqb_eq in E. subst k.
    assert (existsb (String.eqb b) keys = false) as ->; [|lia].
    apply not_true_is_false. intros Hex.
    apply existsb_exists in Hex as (x & Hx & Exb).
    apply String.eqb_eq in Exb. subst x.
    apply Hnotin, list_elem_of_In, Hx.
Qed.

Lemma sum_len_same {A : Type} (m m' : gmap string (list A)) keys :
  (forall k, In k keys -> bucket_len m' k = bucket_len m k) ->
  sum_len m' keys = sum_len m keys.
Proof.
  unfold sum_len. induction keys as [|k keys IH]; simpl; intros Hk.
  - reflexivity.
  - rewrite (Hk k) by (left; reflexivity).
    rewrite IH by (intros; apply Hk; right; assumption). reflexivity.
Qed.

Lemma outcome_names_NoDup : NoDup outcome_names.
Proof. apply (bool_decide_unpack _). vm_compute. exact I. Qed.

Lemma not_correct_names_NoDup : NoDup not_correct_names.
Proof. apply (bool_decide_unpack _). vm_compute. exact I. Qed.

Lemma existsb_outcome_names b :
  In b outcome_names -> existsb (String.eqb b) outcome_names = true.
Proof.
  intros H. apply existsb_exists. exists b. split; [exact H|].
  apply String.eqb_refl.
Qed.

Lemma existsb_not_correct_names b :
  existsb (String.eqb b) not_correct_names = is_not_correct b.
Proof.
  unfold is_not_correct. simpl. rewrite orb_false_r, orb_assoc. reflexivity.
Qed.

Lemma outcome_names_curve k : In k outcome_names -> bucket_source k = SrcCurve.
Proof.
  simpl. intros H.
  repeat (destruct H as [H|H]; [subst k; reflexivity|]). contradiction.
Qed.

(** The three counts, row by row. *)
Lemma scan_counts events : forall st st',
  dom (split_ev st) = list_to_set condition_names ->
  scan st events = Ok st' ->
  bucket_len (split_ev st') "PreSwitchCurves" =
    (bucket_len (split_ev st) "PreSwitchCurves" + count_postswitch events)%nat /\
  sum_len (split_ev st') outcome_names =
    (sum_len (split_ev st) outcome_names + count_postswitch events)%nat /\
  (bucket_len (split_ev st') "CurveNotCOR" +
   sum_len (split_ev st) not_correct_names =
   bucket_len (split_ev st) "CurveNotCOR" +
   sum_len (split_ev st') not_correct_names)%nat.
Proof.
  unfold count_postswitch.
  induction events as [|ev rest IH]; intros st st' Hd H;
    cbn [scan] in H; cbn [List.filter].
  - inversion H; subst. simpl. repeat split; lia.
  - apply bind_Ok in H as (st1 & H1 & H).
    assert (dom (split_ev st1) = list_to_set condition_names) as Hd1.
    { rewrite (process_row_dom _ _ _ H1). exact Hd. }
    destruct (IH _ _ Hd1 H) as (I1 & I2 & I3).
    destruct (is_postswitch ev) eqn:Ep; cbn [length].
    + destruct (process_row_postswitch_counts _ _ _ Ep Hd H1)
        as (b & Hb & C1 & C2 & C3).
      pose proof (sum_len_step _ _ b outcome_names outcome_names_NoDup C3)
        as S1.
      rewrite (existsb_outcome_names b Hb) in S1.
      assert (forall k, In k not_correct_names ->
                bucket_len (split_ev st1) k =
                (bucket_len (split_ev st) k +
                 if String.eqb k b then 1 else 0)%nat) as C3'.
      { intros k Hk. apply C3. unfold outcome_names.
        apply in_or_app. right. exact Hk. }
      pose proof (sum_len_step _ _ b not_correct_names
                    not_correct_names_NoDup C3') as S2.
      rewrite existsb_not_correct_names in S2.
      repeat split; lia.
    + assert (forall k, bucket_source k = SrcCurve ->
                bucket_len (split_ev st1) k = bucket_len (split_ev st) k)
        as Hsame.
      { intros k Hk. unfold bucket_len.
        rewrite (process_row_keeps_curve _ _ _ k Ep H1 Hk). reflexivity. }
      rewrite (Hsame "PreSwitchCurves" eq_refl) in I1.
      rewrite (Hsame "CurveNotCOR" eq_refl) in I3.
      rewrite (sum_len_same (split_ev st) (split_ev st1) outcome_names) in I2
        by (intros k Hk; apply Hsame, outcome_names_curve, Hk).
      rewrite (sum_len_same (split_ev st) (split_ev st1) not_correct_names)
        in I3
        by (intros k Hk; apply Hsame, outcome_names_curve;
            unfold outcome_names; apply in_or_app; right; exact Hk).
      repeat split; lia.
Qed.

Lemma bucket_len_out (st : state) (k : string) :
  bucket_len ((map to_cevent) <$> split_ev st) k = bucket_len (split_ev st) k.
Proof.
  unfold bucket_len. rewrite lookup_fmap.
  destruct (split_ev st !! k); simpl; [apply length_map|reflexivity].
Qed.

Lemma sum_len_out (st : state) (keys : list string) :
  sum_len ((map to_cevent) <$> split_ev st) keys = sum_len (split_ev st) keys.
Proof.
  unfold sum_len. f_equal. apply map_ext. intros k. apply bucket_len_out.
Qed.

Lemma bucket_len_init (k : string) : bucket_len (split_ev init_state) k = 0%nat.
Proof.
  unfold bucket_len. destruct (split_ev init_state !! k) as [l|] eqn:E;
    [|reflexivity].
  apply init_lookup in E. subst l. reflexivity.
Qed.

Lemma sum_len_init (keys : list string) :
  sum_len (split_ev init_state) keys = 0%nat.
Proof.
  unfold sum_len. induction keys as [|k keys IH]; [reflexivity|].
  cbn [map list_sum]. rewrite bucket_len_init. exact IH.
Qed.

Lemma sum_len_app {A : Type} (m : gmap string (list A)) (ks1 ks2 : list string) :
  sum_len m (ks1 ++ ks2) = (sum_len m ks1 + sum_len m ks2)%nat.
Proof. unfold sum_len. rewrite map_app. apply list_sum_app. Qed.

Lemma count_postswitch_normalize s events :
  count_postswitch (map (normalize s) events) = count_postswitch events.
Proof.
  unfold count_postswitch. induction events as [|ev rest IH]; [reflexivity|].
  cbn [map List.filter].
  change (is_postswitch (normalize s ev)) with (is_postswitch ev).
  destruct (is_postswitch ev); cbn [length]; rewrite IH; reflexivity.
Qed.

(** X2.  When [process_events] returns, 'PreSwitchCurves' has one event
    for each POSTSWITCH row of a task other than the fixation task, and
    so have the eight buckets of the outcomes taken together: every such
    row resolves one trial, into one outcome. *)
Theorem one_event_per_trial (event_log : list row) (TR : Q) (in_nvols : Z)
    (out : gmap string (list cevent)) (end_time_s : Q) (nvols : Z) :
  process_events event_log TR in_nvols = Ok (out, end_time_s, nvols) ->
  bucket_len out "PreSwitchCurves" = count_postswitch event_log /\
  sum_len out outcome_names = count_postswitch event_log.
Proof.
  intros H.
  apply process_events_Ok in H
    as (s & st & final & _ & Hscan & _ & _ & _ & _ & ->).
  destruct (scan_counts _ _ _ init_dom Hscan) as (I1 & I2 & _).
  rewrite bucket_len_out, sum_len_out, I1, I2.
  rewrite bucket_len_init, sum_len_init, count_postswitch_normalize.
  split; reflexivity.
Qed.

Lemma one_event_per_trial_witness :
  exists out end_time_s nvols,
    process_events scenario_B (25 # 10) 420 = Ok (out, end_time_s, nvols) /\
    bucket_len out "PreSwitchCurves" = count_postswitch scenario_B /\
    sum_len out outcome_names = count_postswitch scenario_B.
Proof.
  destruct (returns_Ok (process_events scenario_B (25 # 10) 420))
    as ([[out e] v] & E); [vm_compute; reflexivity|].
  exists out, e, v. split; [exact E|].
  apply (one_event_per_trial scenario_B (25 # 10) 420 out e v). exact E.
Defined.

(** X3.  When [process_events] returns, 'CurveNotCOR' has as many events
    as 'CurveFalseHit', 'CurveNoResponse' and 'CurveFixationBreak'
    together, and 'PreSwitchCurves' has as many as 'CurveNotCOR' and the
    five attend buckets together: a trial is counted as correct on one
    target or as not correct, never both and never neither. *)
Theorem not_correct_is_the_rest (event_log : list row) (TR : Q)
    (in_nvols : Z) (out : gmap string (list cevent)) (end_time_s : Q)
    (nvols : Z) :
  process_events event_log TR in_nvols = Ok (out, end_time_s, nvols) ->
  bucket_len out "CurveNotCOR" = sum_len out not_correct_names /\
  bucket_len out "PreSwitchCurves" =
    (bucket_len out "CurveNotCOR" + sum_len out attend_names)%nat.
Proof.
  intros H.
  apply process_events_Ok in H
    as (s & st & final & _ & Hscan & _ & _ & _ & _ & ->).
  destruct (scan_counts _ _ _ init_dom Hscan) as (I1 & I2 & I3).
  rewrite !bucket_len_out, !sum_len_out.
  rewrite bucket_len_init, sum_len_init in *.
  unfold outcome_names in I2. rewrite sum_len_app in I2.
  split; lia.
Qed.

Lemma not_correct_is_the_rest_witness :
  exists out end_time_s nvols,
    process_events scenario_B (25 # 10) 420 = Ok (out, end_time_s, nvols) /\
    bucket_len out "CurveNotCOR" = sum_len out not_correct_names /\
    bucket_len out "PreSwitchCurves" =
      (bucket_len out "CurveNotCOR" + sum_len out attend_names)%nat.
Proof.
  destruct (returns_Ok (process_events scenario_B (25 # 10) 420))
    as ([[out e] v] & E); [vm_compute; reflexivity|].
  exists out, e, v. split; [exact E|].
  apply (not_correct_is_the_rest scenario_B (25 # 10) 420 out e v). exact E.
Defined.

(** ** The variables of a trial *)

Lemma track_state_eq st ev :
  track_state ev st =
  set_curve_switched
    (if is_switched ev then true else curve_switched st)
    (set_curr_state
       (if cell_is (event ev) "NewState" then Some (info ev)
        else curr_state st) st).
Proof.
  unfold track_state, is_switched.
  destruct st as [m lc tg so rs sw fo rc cs bf mr].
  destruct (cell_is (event ev) "NewState"); simpl; [|reflexivity].
  destruct (cell_is (info ev) "SWITCHED"); reflexivity.
Qed.

(** The values of the variables of the trial after a row. *)
Lemma dispatch_trial_vars st ev st' :
  dispatch ev st = Ok st' ->
  curve_switched st' =
    (if is_trial_end ev then false else curve_switched st) /\
  response_cues_on st' =
    (if is_trial_end ev then None
     else if is_switched ev then Some (time_s ev)
     else response_cues_on st) /\
  curve_stim_on st' =
    (if is_trial_end ev then None
     else if is_preswitch ev then Some (time_s ev)
     else curve_stim_on st) /\
  curve_target st' =
    (if is_target_loc ev then Some (info ev)
     else if is_trial_end ev then None
     else curve_target st) /\
  curve_response st' =
    (if is_trial_end ev then None
     else if is_response_given ev then
       match curve_response st with
       | Some c => Some c
       | None => Some (info ev)
       end
     else curve_response st) /\
  (is_preswitch ev = true -> is_Some (curve_target st)).
Proof.
  unfold dispatch, is_trial_end, is_switched, is_preswitch, is_target_loc,
    is_response_given.
  intros H.
  repeat match type of H with
  | (if ?b then _ else _) = Ok _ => destruct b eqn:?
  end.
  7: { apply trial_resolution_shape in H as (m & lc & ->). simpl.
       cells. repeat split; try reflexivity. discriminate. }
  all: exec; simplify_eq; simpl.
  all: cells.
  all: repeat match goal with
       | E : ?b = false |- context [?b] => rewrite E
       end.
  all: rewrite ?andb_false_r.
  all: repeat split; try reflexivity; try discriminate.
  all: try (intros _; apply (bool_decide_eq_true_1 _); assumption).
  all: destruct (curve_response st) as [c|] eqn:Er;
       destruct (cell_is (event ev) "ResponseGiven") eqn:Eg;
       simpl in *; try reflexivity; try discriminate.
Qed.

Lemma process_row_trial_vars st ev st' :
  process_row st ev = Ok st' ->
  curve_switched st' =
    (if is_trial_end ev then false
     else if is_switched ev then true
     else curve_switched st) /\
  response_cues_on st' =
    (if is_trial_end ev then None
     else if is_switched ev then Some (time_s ev)
     else response_cues_on st) /\
  curve_stim_on st' =
    (if is_trial_end ev then None
     else if is_preswitch ev then Some (time_s ev)
     else curve_stim_on st) /\
  curve_target st' =
    (if is_target_loc ev then Some (info ev)
     else if is_trial_end ev then None
     else curve_target st) /\
  curve_response st' =
    (if is_trial_end ev then None
     else if is_response_given ev then
       match curve_response st with
       | Some c => Some c
       | None => Some (info ev)
       end
     else curve_response st) /\
  (is_preswitch ev = true -> is_Some (curve_target st)).
Proof.
  rewrite process_row_eq. destruct (cell_is (event ev) "Fixation") eqn:E.
  - intros H. unfold is_trial_end, is_switched, is_preswitch, is_target_loc,
      is_response_given.
    apply cell_is_eq in E. unfold track_fixation in H. rewrite E in *.
    simpl in *.
    exec; simplify_eq; simpl; repeat split; try reflexivity; discriminate.
  - rewrite track_state_eq. intros H.
    apply dispatch_trial_vars in H. simpl in H.
    destruct H as (H1 & H2 & H3 & H4 & H5 & H6).
    repeat split; assumption.
Qed.

(** X4.  In every state that the scan reaches, the switched flag is set
    exactly when the onset of the response window is recorded: both are
    set by a SWITCHED row and cleared by a TRIAL_END row.  So a trial
    classified 'CurveNoResponse' has a 'ResponseCues' event, and a trial
    with no response and no such event is a fixation break. *)
Theorem switched_iff_response_window (events : list row) (st : state) :
  scan init_state events = Ok st ->
  curve_switched st = true <-> is_Some (response_cues_on st).
Proof.
  assert (forall st0,
            (curve_switched st0 = true <-> is_Some (response_cues_on st0)) ->
            scan st0 events = Ok st ->
            curve_switched st = true <-> is_Some (response_cues_on st))
    as Hgen.
  { induction events as [|ev rest IH]; simpl; intros st0 Hi H.
    - inversion H; subst. exact Hi.
    - apply bind_Ok in H as (st1 & H1 & H).
      apply (IH st1); [|exact H].
      destruct (process_row_trial_vars _ _ _ H1) as (E1 & E2 & _).
      rewrite E1, E2.
      destruct (is_trial_end ev).
      { split; [discriminate | intros [x Hx]; discriminate]. }
      destruct (is_switched ev); [|exact Hi].
      split; [eauto | reflexivity]. }
  apply Hgen. simpl. split; [discriminate | intros [x Hx]; discriminate].
Qed.

Lemma switched_iff_response_window_witness :
  exists st,
    scan init_state (map (normalize 0) scenario_A) = Ok st /\
    (curve_switched st = true <-> is_Some (response_cues_on st)).
Proof.
  destruct (returns_Ok (scan init_state (map (normalize 0) scenario_A)))
    as (st & E); [vm_compute; reflexivity|].
  exists st. split; [exact E|].
  apply (switched_iff_response_window (map (normalize 0) scenario_A) st).
  exact E.
Defined.

(** X5.  In every state that the scan reaches, a recorded stimulus onset
    comes with a target: PRESWITCH asserts that the target is set, and
    only TRIAL_END clears the target, together with the onset.  So the
    bucket of a correct trial is never 'AttendNone_COR'. *)
Theorem stimulus_onset_has_target (events : list row) (st : state) :
  scan init_state events = Ok st ->
  is_Some (curve_stim_on st) -> is_Some (curve_target st).
Proof.
  assert (forall st0,
            (is_Some (curve_stim_on st0) -> is_Some (curve_target st0)) ->
            scan st0 events = Ok st ->
            is_Some (curve_stim_on st) -> is_Some (curve_target st))
    as Hgen.
  { induction events as [|ev rest IH]; simpl; intros st0 Hi H.
    - inversion H; subst. exact Hi.
    - apply bind_Ok in H as (st1 & H1 & H).
      apply (IH st1); [|exact H].
      destruct (process_row_trial_vars _ _ _ H1)
        as (_ & _ & E3 & E4 & _ & E6).
      rewrite E3, E4.
      destruct (is_target_loc ev); [eauto|].
      destruct (is_trial_end ev); [intros [x Hx]; discriminate|].
      destruct (is_preswitch ev); [intros _; apply E6; reflexivity|].
      exact Hi. }
  apply Hgen. simpl. intros [x Hx]. discriminate.
Qed.

Lemma stimulus_onset_has_target_witness :
  exists st,
    scan init_state (map (normalize 0) (take 3 scenario_A)) = Ok st /\
    is_Some (curve_stim_on st) /\
    is_Some (curve_target st).
Proof.
  destruct (returns_Ok
              (scan init_state (map (normalize 0) (take 3 scenario_A))))
    as (st & E); [vm_compute; reflexivity|].
  assert (curve_stim_on <$> state_after (map (normalize 0) (take 3 scenario_A))
          = Some (Some (5 - 0)%Q)) as Hs by (vm_compute; reflexivity).
  unfold state_after in Hs. rewrite E in Hs. simpl in Hs.
  assert (is_Some (curve_stim_on st)) as Hstim.
  { injection Hs as ->. eauto. }
  exists st. split; [exact E|]. split; [exact Hstim|].
  apply (stimulus_onset_has_target (map (normalize 0) (take 3 scenario_A)) st);
    [exact E | exact Hstim].
Defined.

(** X6.  The response outcome is latched: after any rows that the scan
    accepts, the response that the state holds is the info of the first
    'ResponseGiven' row since the last TRIAL_END row (none when there is
    no such row); later 'ResponseGiven' rows of the trial do not change
    it. *)
Theorem response_is_latched (events : list row) (st st' : state) :
  scan st events = Ok st' ->
  curve_response st' = latched_response (curve_response st) events.
Proof.
  revert st. induction events as [|ev rest IH]; simpl; intros st H.
  - inversion H; subst. reflexivity.
  - apply bind_Ok in H as (st1 & H1 & H).
    rewrite (IH _ H).
    destruct (process_row_trial_vars _ _ _ H1) as (_ & _ & _ & _ & E5 & _).
    rewrite E5. reflexivity.
Qed.

Lemma response_is_latched_witness :
  exists st',
    scan init_state (map (normalize 0) (take 6 log_two_responses)) = Ok st' /\
    curve_response st' =
      latched_response (curve_response init_state)
        (map (normalize 0) (take 6 log_two_responses)) /\
    latched_response (curve_response init_state)
      (map (normalize 0) (take 6 log_two_responses))
      = Some (Str "INCORRECT").
Proof.
  destruct (returns_Ok
              (scan init_state (map (normalize 0) (take 6 log_two_responses))))
    as (st' & E); [vm_compute; reflexivity|].
  exists st'. split; [exact E|]. split; [|reflexivity].
  apply (response_is_latched (map (normalize 0) (take 6 log_two_responses))
           init_state st').
  exact E.
Defined.

Example two_responses_false_hit :
  out_lookup (process_events log_two_responses (25 # 10) 420) "CurveFalseHit"
    = Some [ mkCevent (Some (5 - 0)%Q) (10 - 0 - (5 - 0))%Q (AmpNum 1) ] /\
  out_lookup (process_events log_two_responses (25 # 10) 420) "AttendUL_COR"
    = Some [].
Proof. split; vm_compute; reflexivity. Qed.

(** ** Rows that stop the computation *)

(** A row that raises [err] in whatever state the rows before it leave
    makes the whole computation raise, and raise [err] when these rows
    are processed without an error. *)
Lemma raise_at_row (pre post : list row) (ev : row) (TR : Q) (in_nvols : Z)
    (err : error) :
  (forall s st,
     start_time (pre ++ ev :: post) = Ok s ->
     scan init_state (map (normalize s) pre) = Ok st ->
     process_row st (normalize s ev) = Raise err) ->
  (exists e, process_events (pre ++ ev :: post) TR in_nvols = Raise e) /\
  (forall start_time_s st,
     start_time (pre ++ ev :: post) = Ok start_time_s ->
     scan init_state (map (normalize start_time_s) pre) = Ok st ->
     process_events (pre ++ ev :: post) TR in_nvols = Raise err).
Proof.
  intros Hrow.
  assert (forall s st,
            start_time (pre ++ ev :: post) = Ok s ->
            scan init_state (map (normalize s) pre) = Ok st ->
            process_events (pre ++ ev :: post) TR in_nvols = Raise err)
    as Hmain.
  { intros s st Hs Hscan. unfold process_events. rewrite Hs. simpl.
    rewrite map_app. simpl. rewrite scan_app, Hscan. simpl.
    rewrite (Hrow s st Hs Hscan). reflexivity. }
  split; [|exact Hmain].
  destruct (start_time (pre ++ ev :: post)) as [s|e] eqn:Hs.
  - destruct (scan init_state (map (normalize s) pre)) as [st|e] eqn:Hscan.
    + exists err. eapply Hmain; eauto.
    + exists e. unfold process_events. rewrite Hs. simpl.
      rewrite map_app, (scan_Raise_app _ _ _ _ Hscan). reflexivity.
  - exists e. unfold process_events. rewrite Hs. reflexivity.
Qed.

Lemma process_row_preswitch_no_target st ev :
  is_preswitch ev = true ->
  curve_target st = None ->
  process_row st ev = Raise (AssertionError None).
Proof.
  intros Hp Ht. rewrite process_row_eq. unfold is_preswitch in Hp.
  apply andb_true_iff in Hp as [He Hi]. apply cell_is_eq in He, Hi.
  rewrite He. simpl. rewrite track_state_eq.
  unfold dispatch. rewrite He, Hi. simpl. rewrite Ht. reflexivity.
Qed.

Lemma scan_target_unset events : forall st st' set,
  (set = false -> curve_target st = None) ->
  scan st events = Ok st' ->
  target_set set events = false ->
  curve_target st' = None.
Proof.
  induction events as [|ev rest IH]; simpl; intros st st' set Hu H Hm.
  - inversion H; subst. auto.
  - apply bind_Ok in H as (st1 & H1 & H).
    apply (IH st1 st' _) in Hm; [exact Hm| |exact H].
    destruct (process_row_trial_vars _ _ _ H1) as (_ & _ & _ & E4 & _).
    rewrite E4.
    destruct (is_target_loc ev); [discriminate|].
    destruct (is_trial_end ev); [reflexivity|]. exact Hu.
Qed.

Lemma target_set_normalize s events : forall set,
  target_set set (map (normalize s) events) = target_set set events.
Proof.
  induction events as [|ev rest IH]; simpl; intros set; [reflexivity|].
  apply IH.
Qed.

(** X7.  A PRESWITCH row that no 'TargetLoc' row precedes since the start
    of the log or since the last TRIAL_END row stops the computation:
    [process_events] returns nothing, and when the rows before it are
    processed without an error it raises the [AssertionError] of
    [assert curve_target is not None], which has no message. *)
Theorem preswitch_without_target (pre post : list row) (ev : row)
    (TR : Q) (in_nvols : Z) :
  is_preswitch ev = true ->
  target_set false pre = false ->
  (exists e, process_events (pre ++ ev :: post) TR in_nvols = Raise e) /\
  (forall start_time_s st,
     start_time (pre ++ ev :: post) = Ok start_time_s ->
     scan init_state (map (normalize start_time_s) pre) = Ok st ->
     process_events (pre ++ ev :: post) TR in_nvols
     = Raise (AssertionError None)).
Proof.
  intros Hp Hm. apply raise_at_row. intros s st _ Hscan.
  apply process_row_preswitch_no_target; [exact Hp|].
  apply (scan_target_unset (map (normalize s) pre) init_state st false);
    [reflexivity | exact Hscan |].
  rewrite target_set_normalize. exact Hm.
Qed.

Lemma preswitch_without_target_witness :
  is_preswitch (R "Curve tracing" "NewState" "PRESWITCH" 5) = true /\
  target_set false [R "Curve tracing" "MRI_Trigger" "Received" 0] = false /\
  process_events log_preswitch_first (25 # 10) 420
  = Raise (AssertionError None).
Proof.
  split; [reflexivity|]. split; [reflexivity|].
  destruct (returns_Ok
              (scan init_state
                 (map (normalize 0)
                    [R "Curve tracing" "MRI_Trigger" "Received" 0])))
    as (st & E); [vm_compute; reflexivity|].
  apply (proj2 (preswitch_without_target
                  [R "Curve tracing" "MRI_Trigger" "Received" 0] []
                  (R "Curve tracing" "NewState" "PRESWITCH" 5) (25 # 10) 420
                  eq_refl eq_refl) 0%Q st eq_refl E).
Defined.

(** The flag of the current encoding is never cleared. *)
Lemma process_row_has_ManualReward st ev st' :
  process_row st ev = Ok st' ->
  has_ManualRewardField st' = has_ManualRewardField st || is_ManualReward ev.
Proof.
  rewrite process_row_eq. unfold is_ManualReward.
  destruct (cell_is (event ev) "Fixation") eqn:E.
  - intros H. apply cell_is_eq in E. unfold track_fixation in H.
    rewrite E in *. simpl in *.
    exec; simplify_eq; simpl; rewrite orb_false_r; reflexivity.
  - rewrite track_state_eq. unfold dispatch. intros H.
    repeat match type of H with
    | (if ?b then _ else _) = Ok _ => destruct b eqn:?
    end.
    7: { apply trial_resolution_shape in H as (m & lc & ->). simpl.
         cells. rewrite orb_false_r. reflexivity. }
    all: exec; simplify_eq; simpl.
    all: try (match goal with
              | Em : cell_is _ "ManualReward" = _ |- _ => rewrite Em
              end; rewrite ?orb_false_r, ?orb_true_r; reflexivity).
    all: repeat match goal with
         | Ho : _ || _ = true |- _ => apply orb_true_iff in Ho as [Ho|Ho]
         end.
    all: cells; rewrite ?orb_false_r, ?orb_true_r; reflexivity.
Qed.

Lemma scan_has_ManualReward events : forall st st',
  scan st events = Ok st' ->
  existsb is_ManualReward events = true ->
  has_ManualRewardField st' = true.
Proof.
  assert (forall evs st st',
            scan st evs = Ok st' ->
            has_ManualRewardField st = true ->
            has_ManualRewardField st' = true) as Hkeep.
  { induction evs as [|ev rest IH]; simpl; intros st st' H Hm.
    - inversion H; subst. exact Hm.
    - apply bind_Ok in H as (st1 & H1 & H). apply (IH _ _ H).
      rewrite (process_row_has_ManualReward _ _ _ H1), Hm. reflexivity. }
  induction events as [|ev rest IH]; simpl; intros st st' H Hex.
  - discriminate.
  - apply bind_Ok in H as (st1 & H1 & H).
    destruct (is_ManualReward ev) eqn:Em; simpl in Hex.
    + apply (Hkeep _ _ _ H).
      rewrite (process_row_has_ManualReward _ _ _ H1), Em.
      apply orb_true_r.
    + apply (IH _ _ H Hex).
Qed.

Lemma process_row_legacy_conflict st ev :
  is_legacy_manual ev = true ->
  has_ManualRewardField st = true ->
  dom (split_ev st) = list_to_set condition_names ->
  process_row st ev = Raise conflicting_encoding.
Proof.
  intros Hl Hm Hd. rewrite process_row_eq. unfold is_legacy_manual in Hl.
  apply andb_true_iff in Hl as [He Hi]. apply cell_is_eq in He, Hi.
  rewrite He. simpl. rewrite track_state_eq.
  unfold dispatch. rewrite He, Hi. simpl.
  rewrite andb_false_r. simpl.
  unfold append_event. simpl.
  destruct (lookup_condition st "Reward" Hd) as (l & ->); [simpl; tauto|].
  simpl. rewrite Hm. reflexivity.
Qed.

Lemma existsb_ManualReward_normalize s events :
  existsb is_ManualReward (map (normalize s) events) =
  existsb is_ManualReward events.
Proof.
  induction events as [|ev rest IH]; simpl; [reflexivity|].
  rewrite IH. reflexivity.
Qed.

(** X8.  The order of the two encodings that the code does catch: a
    ('Reward', 'Manual') row that comes after a 'ManualReward' row stops
    the computation; [process_events] returns nothing, and when the rows
    before it are processed without an error it raises the assertion on
    the two encodings. *)
Theorem manual_then_legacy_conflict (pre post : list row) (ev : row)
    (TR : Q) (in_nvols : Z) :
  is_legacy_manual ev = true ->
  existsb is_ManualReward pre = true ->
  (exists e, process_events (pre ++ ev :: post) TR in_nvols = Raise e) /\
  (forall start_time_s st,
     start_time (pre ++ ev :: post) = Ok start_time_s ->
     scan init_state (map (normalize start_time_s) pre) = Ok st ->
     process_events (pre ++ ev :: post) TR in_nvols
     = Raise conflicting_encoding).
Proof.
  intros Hl Hex. apply raise_at_row. intros s st _ Hscan.
  apply process_row_legacy_conflict.
  - exact Hl.
  - apply (scan_has_ManualReward _ _ _ Hscan).
    rewrite existsb_ManualReward_normalize. exact Hex.
  - apply (scan_init_dom _ _ Hscan).
Qed.

Lemma manual_then_legacy_conflict_witness :
  is_legacy_manual (R "Curve tracing" "Reward" "Manual" 2) = true /\
  existsb is_ManualReward (take 2 log_manual_then_legacy) = true /\
  process_events log_manual_then_legacy (25 # 10) 420
  = Raise conflicting_encoding.
Proof.
  split; [reflexivity|]. split; [reflexivity|].
  destruct (returns_Ok
              (scan init_state
                 (map (normalize 0) (take 2 log_manual_then_legacy))))
    as (st & E); [vm_compute; reflexivity|].
  apply (proj2 (manual_then_legacy_conflict
                  (take 2 log_manual_then_legacy) []
                  (R "Curve tracing" "Reward" "Manual" 2) (25 # 10) 420
                  eq_refl eq_refl) 0%Q st eq_refl E).
Defined.

Lemma process_row_fixation_unknown st ev :
  cell_is (event ev) "Fixation" = true ->
  cell_is (info ev) "Out" = false ->
  cell_is (info ev) "In" = false ->
  process_row st ev = Raise (unrecognized_fixation (info ev)).
Proof.
  intros He Ho Hi. rewrite process_row_eq, He.
  unfold track_fixation. rewrite He, Ho, Hi. reflexivity.
Qed.

(** X9.  A fixation marker whose info is neither 'Out' nor 'In' stops the
    computation: [process_events] returns nothing, and when the rows
    before it are processed without an error it raises the assertion
    whose message quotes the info of the row. *)
Theorem unrecognized_fixation_raises (pre post : list row) (ev : row)
    (TR : Q) (in_nvols : Z) :
  cell_is (event ev) "Fixation" = true ->
  cell_is (info ev) "Out" = false ->
  cell_is (info ev) "In" = false ->
  (exists e, process_events (pre ++ ev :: post) TR in_nvols = Raise e) /\
  (forall start_time_s st,
     start_time (pre ++ ev :: post) = Ok start_time_s ->
     scan init_state (map (normalize start_time_s) pre) = Ok st ->
     process_events (pre ++ ev :: post) TR in_nvols
     = Raise (unrecognized_fixation (info ev))).
Proof.
  intros He Ho Hi. apply raise_at_row. intros s st _ _.
  apply (process_row_fixation_unknown st (normalize s ev) He Ho Hi).
Qed.

Lemma unrecognized_fixation_raises_witness :
  cell_is (event (R "Curve tracing" "Fixation" "Lost" 2)) "Fixation" = true /\
  cell_is (info (R "Curve tracing" "Fixation" "Lost" 2)) "Out" = false /\
  cell_is (info (R "Curve tracing" "Fixation" "Lost" 2)) "In" = false /\
  process_events log_fixation_unknown (25 # 10) 420
  = Raise (unrecognized_fixation (Str "Lost")).
Proof.
  split; [reflexivity|]. split; [reflexivity|]. split; [reflexivity|].
  destruct (returns_Ok
              (scan init_state
                 (map (normalize 0)
                    [R "Curve tracing" "MRI_Trigger" "Received" 0])))
    as (st & E); [vm_compute; reflexivity|].
  apply (proj2 (unrecognized_fixation_raises
                  [R "Curve tracing" "MRI_Trigger" "Received" 0] []
                  (R "Curve tracing" "Fixation" "Lost" 2) (25 # 10) 420
                  eq_refl eq_refl eq_refl) 0%Q st eq_refl E).
Defined.

(** ** The hand of a response *)

Lemma hand_in_names x :
  In ("Hand" +:+ x) condition_names -> x = "Left" \/ x = "Right".
Proof.
  simpl. intros H.
  repeat (destruct H as [H|H];
          [first [discriminate H | inversion H; auto]|]).
  contradiction.
Qed.

Lemma dispatch_response_initiate st ev :
  is_response_initiate ev = true ->
  dispatch ev st =
  append_event ("Hand" +:+ str_of_cell (info ev))
    (Event.instant (time_s ev) (AmpNum 1)) st.
Proof.
  unfold is_response_initiate, dispatch. intros He.
  apply cell_is_eq in He. rewrite He. simpl.
  rewrite !andb_false_r. reflexivity.
Qed.

(** X10.  A 'Response_Initiate' row appends to the bucket 'Hand' followed
    by its info one event at the time of the row, of duration 0 and
    amplitude 1, and leaves every other bucket alone; the info must be
    'Left' or 'Right', for any other info (a missing one too) there is
    no such bucket and the row raises [KeyError]. *)
Theorem response_initiate_hand (st : state) (ev : row) :
  is_response_initiate ev = true ->
  dom (split_ev st) = list_to_set condition_names ->
  let key := "Hand" +:+ str_of_cell (info ev) in
  if cell_is (info ev) "Left" || cell_is (info ev) "Right" then
    exists l st',
      split_ev st !! key = Some l /\
      process_row st ev = Ok st' /\
      split_ev st' !! key =
        Some (l ++ [Event.mk (Some (time_s ev)) 0 1 (AmpNum 1)]) /\
      (forall k, k <> key -> split_ev st' !! k = split_ev st !! k)
  else process_row st ev = Raise (KeyError key).
Proof.
  intros He Hd key. rewrite process_row_eq.
  pose proof He as He'. unfold is_response_initiate in He'.
  apply cell_is_eq in He'. rewrite He'. simpl.
  rewrite (dispatch_response_initiate _ _ He), track_state_eq.
  unfold append_event. simpl. fold key.
  destruct (cell_is (info ev) "Left" || cell_is (info ev) "Right") eqn:Ei.
  - assert (In key condition_names) as Hin.
    { unfold key. apply orb_true_iff in Ei as [Ei|Ei];
        apply cell_is_eq in Ei; rewrite Ei; simpl; auto 20. }
    destruct (lookup_condition st key Hd Hin) as (l & Hl).
    rewrite Hl. simpl. eexists l, _. split; [reflexivity|].
    split; [reflexivity|]. simpl. split.
    + apply lookup_insert_eq.
    + intros k Hk. apply lookup_insert_ne. auto.
  - destruct (split_ev st !! key) as [l|] eqn:Hl; [|reflexivity].
    exfalso.
    assert (In key condition_names) as Hin.
    { apply list_elem_of_In, (elem_of_list_to_set (C := gset string)).
      rewrite <- Hd. apply elem_of_dom. eauto. }
    apply hand_in_names in Hin.
    apply orb_false_iff in Ei as [E1 E2].
    destruct (info ev) as [|x]; simpl in *.
    + destruct Hin; discriminate.
    + destruct Hin as [-> | ->]; discriminate.
Qed.

Lemma response_initiate_hand_witness :
  is_response_initiate (R "Curve tracing" "Response_Initiate" "Both" 2) = true /\
  dom (split_ev init_state) = list_to_set condition_names /\
  process_row init_state (R "Curve tracing" "Response_Initiate" "Both" 2)
  = Raise (KeyError "HandBoth").
Proof.
  split; [reflexivity|]. split; [exact init_dom|].
  apply (response_initiate_hand init_state
           (R "Curve tracing" "Response_Initiate" "Both" 2)
           eq_refl init_dom).
Defined.

Example hand_left_event :
  out_lookup (process_events log_hand_left (25 # 10) 420) "HandLeft"
    = Some [ mkCevent (Some (2 - 0)%Q) 0 (AmpNum 1) ] /\
  process_events log_hand_unknown (25 # 10) 420 = Raise (KeyError "HandBoth").
Proof. split; vm_compute; reflexivity. Qed.

(** ** Bounds on the end time and on the count *)


Lemma py_min_le_l (a b : Q) : (py_min a b <= a)%Q.
Proof.
  unfold py_min, Qltb. destruct (Qle_bool a b) eqn:E; simpl.
  - apply Qle_refl.
  - apply Qnot_lt_le. intros Hlt. apply Qlt_le_weak, Qle_bool_iff in Hlt.
    congruence.
Qed.


Lemma last_row_map (f : row -> row) events ev :
  last_row events = Ok ev -> last_row (map f events) = Ok (f ev).
Proof.
  intros H. apply last_row_Ok in H as (pre & ->).
  rewrite map_app. apply last_row_snoc.
Qed.







(** * The helpers of the workflows *)

(** ** [sort_copes] *)

Lemma py_index_Ok {A : Type} (l : list A) (i : nat) (x : A) :
  py_index l i = Ok x <-> l !! i = Some x.
Proof.
  unfold py_index. destruct (l !! i); split; intros H;
    inversion H; reflexivity.
Qed.

Lemma sort_copes_inner_Ok {A : Type} (files : list (list A)) (i : nat) :
  forall acc col,
    sort_copes_inner files i acc = Ok col ->
    exists col', col = acc ++ col' /\
                 Forall2 (fun els x => els !! i = Some x) files col'.
Proof.
  induction files as [|els rest IH]; simpl; intros acc col H.
  - inversion H; subst. exists []. rewrite app_nil_r. split; [reflexivity|].
    constructor.
  - apply bind_Ok in H as (x & Hx & H). apply py_index_Ok in Hx.
    apply IH in H as (col' & -> & HF).
    exists (x :: col'). rewrite <- app_assoc. split; [reflexivity|].
    constructor; assumption.
Qed.

Lemma sort_copes_inner_run {A : Type} (files : list (list A)) (i : nat) :
  forall acc col',
    Forall2 (fun els x => els !! i = Some x) files col' ->
    sort_copes_inner files i acc = Ok (acc ++ col').
Proof.
  induction files as [|els rest IH]; intros acc col' HF;
    inversion HF as [|? x ? col'' Hx HF']; subst; simpl.
  - rewrite app_nil_r. reflexivity.
  - apply py_index_Ok in Hx. rewrite Hx. simpl.
    rewrite (IH _ col'' HF'), <- app_assoc. reflexivity.
Qed.

Lemma sort_copes_outer_Ok {A : Type} (files : list (list A)) (range : list nat) :
  forall acc out,
    sort_copes_outer files range acc = Ok out ->
    exists cols, out = acc ++ cols /\
      Forall2 (fun i col => Forall2 (fun els x => els !! i = Some x) files col)
        range cols.
Proof.
  induction range as [|i range IH]; simpl; intros acc out H.
  - inversion H; subst. exists []. rewrite app_nil_r. split; [reflexivity|].
    constructor.
  - apply bind_Ok in H as (col & Hc & H).
    apply sort_copes_inner_Ok in Hc as (col' & -> & HF). simpl in *.
    apply IH in H as (cols & -> & HFs).
    exists (col' :: cols). rewrite <- app_assoc. split; [reflexivity|].
    constructor; assumption.
Qed.

Lemma sort_copes_outer_run {A : Type} (files : list (list A)) (range : list nat) :
  forall acc cols,
    Forall2 (fun i col => Forall2 (fun els x => els !! i = Some x) files col)
      range cols ->
    sort_copes_outer files range acc = Ok (acc ++ cols).
Proof.
  induction range as [|i range IH]; intros acc cols HF;
    inversion HF as [|? col ? cols' Hc HF']; subst; simpl.
  - rewrite app_nil_r. reflexivity.
  - rewrite (sort_copes_inner_run files i [] col Hc). simpl.
    rewrite (IH _ cols' HF'), <- app_assoc. reflexivity.
Qed.

Lemma sort_copes_Ok {A : Type} (files out : list (list A)) :
  sort_copes files = Ok out ->
  exists first,
    files !! 0%nat = Some first /\
    Forall2 (fun i col => Forall2 (fun els x => els !! i = Some x) files col)
      (seq 0 (length first)) out.
Proof.
  unfold sort_copes. intros H. apply bind_Ok in H as (first & Hf & H).
  apply py_index_Ok in Hf. exists first. split; [exact Hf|].
  apply sort_copes_outer_Ok in H as (cols & -> & HF). exact HF.
Qed.

(** X13.  [sort_copes] transposes: when it returns, the result has one
    list for each position of the first list of [files], each of these
    lists has one element for each list of [files], and the element at
    [j] of the list at [i] is the element at [i] of the list at [j] of
    [files]. *)
Theorem sort_copes_transposes {A : Type} (files out : list (list A)) :
  sort_copes files = Ok out ->
  exists first,
    files !! 0%nat = Some first /\
    length out = length first /\
    Forall (fun col => length col = length files) out /\
    (forall i j els,
       (i < length first)%nat -> files !! j = Some els ->
       exists col x, out !! i = Some col /\ col !! j = Some x /\
                     els !! i = Some x).
Proof.
  intros H. apply sort_copes_Ok in H as (first & Hf & HF).
  exists first. split; [exact Hf|]. split; [|split].
  - apply Forall2_length in HF. rewrite length_seq in HF. auto.
  - apply Forall_forall. intros col Hcol.
    apply list_elem_of_lookup in Hcol as (i & Hi).
    destruct (Forall2_lookup_r _ _ _ _ _ HF Hi) as (i' & _ & Hc).
    apply Forall2_length in Hc. auto.
  - intros i j els Hi Hj.
    assert (seq 0 (length first) !! i = Some i) as Hsi
      by (apply lookup_seq; split; [reflexivity|exact Hi]).
    destruct (Forall2_lookup_l _ _ _ _ _ HF Hsi) as (col & Hcol & Hc).
    destruct (Forall2_lookup_l _ _ _ _ _ Hc Hj) as (x & Hx & Hels).
    eauto.
Qed.

Lemma sort_copes_transposes_witness :
  sort_copes [[1; 2; 3]; [4; 5; 6]]%nat = Ok [[1; 4]; [2; 5]; [3; 6]]%nat /\
  exists first,
    [[1; 2; 3]; [4; 5; 6]]%nat !! 0%nat = Some first /\
    length [[1; 4]; [2; 5]; [3; 6]]%nat = length first /\
    Forall (fun col => length col = length [[1; 2; 3]; [4; 5; 6]]%nat)
      [[1; 4]; [2; 5]; [3; 6]]%nat /\
    (forall i j els,
       (i < length first)%nat -> [[1; 2; 3]; [4; 5; 6]]%nat !! j = Some els ->
       exists col x, [[1; 4]; [2; 5]; [3; 6]]%nat !! i = Some col /\
                     col !! j = Some x /\ els !! i = Some x).
Proof.
  split; [reflexivity|].
  apply (sort_copes_transposes [[1; 2; 3]; [4; 5; 6]]%nat
           [[1; 4]; [2; 5]; [3; 6]]%nat).
  reflexivity.
Defined.

Lemma sort_copes_inner_error {A : Type} (files : list (list A)) (i : nat) :
  forall acc e, sort_copes_inner files i acc = Raise e -> e = IndexError.
Proof.
  induction files as [|els rest IH]; simpl; intros acc e H; [discriminate|].
  unfold py_index in H. destruct (els !! i); simpl in H.
  - eapply IH; exact H.
  - inversion H. reflexivity.
Qed.

Lemma sort_copes_outer_error {A : Type} (files : list (list A)) (range : list nat) :
  forall acc e, sort_copes_outer files range acc = Raise e -> e = IndexError.
Proof.
  induction range as [|i range IH]; simpl; intros acc e H; [discriminate|].
  destruct (sort_copes_inner files i []) as [col|e'] eqn:E; simpl in H.
  - eapply IH; exact H.
  - inversion H; subst. eapply sort_copes_inner_error; exact E.
Qed.

Lemma sort_copes_error {A : Type} (files : list (list A)) e :
  sort_copes files = Raise e -> e = IndexError.
Proof.
  unfold sort_copes, py_index. destruct (files !! 0%nat); simpl; intros H.
  - eapply sort_copes_outer_error; exact H.
  - inversion H. reflexivity.
Qed.

Lemma column_exists {A : Type} (files : list (list A)) (i : nat) :
  Forall (fun els => (i < length els)%nat) files ->
  exists col, Forall2 (fun els x => els !! i = Some x) files col.
Proof.
  induction 1 as [|els rest Hi _ IH].
  - exists []. constructor.
  - destruct IH as (col & HF).
    destruct (lookup_lt_is_Some_2 els i Hi) as (x & Hx).
    exists (x :: col). constructor; assumption.
Qed.

Lemma columns_exist {A : Type} (files : list (list A)) (range : list nat) :
  Forall (fun i => Forall (fun els => (i < length els)%nat) files) range ->
  exists cols,
    Forall2 (fun i col => Forall2 (fun els x => els !! i = Some x) files col)
      range cols.
Proof.
  induction 1 as [|i range Hi _ IH].
  - exists []. constructor.
  - destruct IH as (cols & HF).
    destruct (column_exists files i Hi) as (col & Hc).
    exists (col :: cols). constructor; assumption.
Qed.

Lemma long_enough_returns {A : Type} (files : list (list A)) :
  long_enough files -> exists out, sort_copes files = Ok out.
Proof.
  destruct files as [|first rest]; [contradiction|]. intros Hl.
  unfold long_enough in Hl. unfold sort_copes. simpl.
  destruct (columns_exist (first :: rest) (seq 0 (length first)))
    as (cols & HF).
  { apply Forall_forall. intros i Hi. apply elem_of_seq in Hi.
    eapply Forall_impl; [exact Hl|]. intros els Hels. simpl in Hels. lia. }
  exists cols. apply (sort_copes_outer_run _ _ [] cols HF).
Qed.

Lemma returns_long_enough {A : Type} (files out : list (list A)) :
  sort_copes files = Ok out -> long_enough files.
Proof.
  intros H. apply sort_copes_Ok in H as (first & Hf & HF).
  destruct files as [|first' rest]; [discriminate|].
  simpl in Hf. inversion Hf; subst first'. unfold long_enough.
  apply Forall_forall. intros els Hels.
  apply list_elem_of_lookup in Hels as (j & Hj).
  destruct (decide (length first <= length els)%nat) as [|Hlt]; [assumption|].
  exfalso.
  assert (seq 0 (length first) !! (length els) = Some (length els)) as Hsi
    by (apply lookup_seq; split; [reflexivity|lia]).
  destruct (Forall2_lookup_l _ _ _ _ _ HF Hsi) as (col & _ & Hc).
  destruct (Forall2_lookup_l _ _ _ _ _ Hc Hj) as (x & _ & Hx).
  apply lookup_lt_Some in Hx. lia.
Qed.

(** X14.  [sort_copes] returns exactly when [files] is not empty and
    none of its lists is shorter than the first one; on every other
    input it raises [IndexError] (from [files[0]] on the empty list, from
    [elements[i]] on a short list). *)
Theorem sort_copes_returns_iff {A : Type} (files : list (list A)) :
  (long_enough files -> exists out, sort_copes files = Ok out) /\
  (~ long_enough files -> sort_copes files = Raise IndexError).
Proof.
  split; [apply long_enough_returns|].
  intros Hn. destruct (sort_copes files) as [out|e] eqn:E.
  - exfalso. apply Hn. eapply returns_long_enough; exact E.
  - apply sort_copes_error in E. subst e. reflexivity.
Qed.

Lemma sort_copes_returns_iff_witness :
  sort_copes (@nil (list nat)) = Raise IndexError /\
  sort_copes [[1; 2]; [3]]%nat = Raise IndexError /\
  exists out, sort_copes [[1; 2]; [3; 4; 5]]%nat = Ok out.
Proof.
  split; [|split].
  - apply (proj2 (sort_copes_returns_iff (@nil (list nat)))).
    intros H. exact H.
  - apply (proj2 (sort_copes_returns_iff [[1; 2]; [3]]%nat)).
    intros H. simpl in H. apply Forall_cons in H as [_ H].
    apply Forall_cons in H as [H _]. simpl in H. lia.
  - apply (proj1 (sort_copes_returns_iff [[1; 2]; [3; 4; 5]]%nat)).
    simpl. repeat constructor.
Defined.

(** X15.  On a table, that is when the lists of [files] all have the
    same length, with at least one list and at least one element in
    each, [sort_copes] is its own inverse: applied to its result it
    gives [files] back. *)
Theorem sort_copes_round_trip {A : Type} (n : nat)
    (files out : list (list A)) :
  rectangular n files ->
  files <> [] ->
  (0 < n)%nat ->
  sort_copes files = Ok out ->
  sort_copes out = Ok files.
Proof.
  intros Hrect Hne Hn H.
  pose proof (sort_copes_Ok _ _ H) as (first & Hf & HF).
  assert (length first = n) as Hfirst.
  { unfold rectangular in Hrect. rewrite Forall_forall in Hrect.
    apply Hrect. eapply list_elem_of_lookup_2; exact Hf. }
  assert (length out = n) as Hlen.
  { apply Forall2_length in HF. rewrite length_seq in HF. lia. }
  assert (Forall (fun col => length col = length files) out) as Hcols.
  { apply Forall_forall. intros col Hcol.
    apply list_elem_of_lookup in Hcol as (i & Hi).
    destruct (Forall2_lookup_r _ _ _ _ _ HF Hi) as (i' & _ & Hc).
    apply Forall2_length in Hc. auto. }
  destruct (long_enough_returns out) as (out2 & H2).
  { destruct out as [|c0 out']; [simpl in Hlen; lia|]. unfold long_enough.
    pose proof Hcols as Hc0. apply Forall_cons in Hc0 as [Hc0 _].
    eapply Forall_impl; [exact Hcols|]. intros col Hcol. simpl in *. lia. }
  rewrite H2. f_equal.
  pose proof (sort_copes_Ok _ _ H2) as (c0 & Hc0 & HF2).
  assert (length c0 = length files) as Hc0len.
  { rewrite Forall_forall in Hcols. apply Hcols.
    eapply list_elem_of_lookup_2; exact Hc0. }
  apply list_eq_same_length with (length files).
  - reflexivity.
  - apply Forall2_length in HF2. rewrite length_seq in HF2. lia.
  - intros j row els Hj Hrow Hels.
    assert (seq 0 (length c0) !! j = Some j) as Hsj
      by (apply lookup_seq; split; [reflexivity|lia]).
    destruct (Forall2_lookup_l _ _ _ _ _ HF2 Hsj) as (row' & Hrow' & Hr).
    rewrite Hrow in Hrow'. inversion Hrow'; subst row'. clear Hrow'.
    apply list_eq_same_length with n.
    + unfold rectangular in Hrect. rewrite Forall_forall in Hrect.
      apply Hrect. eapply list_elem_of_lookup_2; exact Hels.
    + apply Forall2_length in Hr. lia.
    + intros i x y Hi Hx Hy.
      assert (seq 0 (length first) !! i = Some i) as Hsi
        by (apply lookup_seq; split; [reflexivity|lia]).
      destruct (Forall2_lookup_l _ _ _ _ _ HF Hsi) as (col & Hcol & Hc).
      destruct (Forall2_lookup_l _ _ _ _ _ Hc Hels) as (z & Hz & Hy').
      destruct (Forall2_lookup_l _ _ _ _ _ Hr Hcol) as (z' & Hx' & Hz').
      congruence.
Qed.

Lemma sort_copes_round_trip_witness :
  rectangular 3 [[1; 2; 3]; [4; 5; 6]]%nat /\
  [[1; 2; 3]; [4; 5; 6]]%nat <> [] /\
  (0 < 3)%nat /\
  sort_copes [[1; 2; 3]; [4; 5; 6]]%nat = Ok [[1; 4]; [2; 5]; [3; 6]]%nat /\
  sort_copes [[1; 4]; [2; 5]; [3; 6]]%nat = Ok [[1; 2; 3]; [4; 5; 6]]%nat.
Proof.
  assert (rectangular 3 [[1; 2; 3]; [4; 5; 6]]%nat) as Hr
    by (repeat constructor).
  split; [exact Hr|]. split; [discriminate|]. split; [lia|].
  split; [reflexivity|].
  apply (sort_copes_round_trip 3 [[1; 2; 3]; [4; 5; 6]]%nat
           [[1; 4]; [2; 5]; [3; 6]]%nat Hr);
    [discriminate | lia | reflexivity].
Defined.

(** The [sort_copes] of [modelfit_workflow.py] refuses a first list of
    fewer than two elements with an [AssertionError] (after the
    [IndexError] of an empty [files]), and is the [sort_copes] of
    [fmri_workflow.py] on every other input. *)
Lemma sort_copes_checked_spec {A : Type} (files : list (list A)) :
  match files with
  | [] => sort_copes_checked files = Raise IndexError
  | first :: _ =>
      if Nat.ltb 1 (length first)
      then sort_copes_checked files = sort_copes files
      else sort_copes_checked files = Raise (AssertionError None)
  end.
Proof.
  destruct files as [|first rest]; [reflexivity|].
  unfold sort_copes_checked, sort_copes. simpl.
  destruct (Nat.ltb 1 (length first)); reflexivity.
Qed.

(** The [sort_copes] of [modelfit_workflow.py], when it returns. *)
Lemma sort_copes_checked_Ok {A : Type} (files out : list (list A)) :
  sort_copes_checked files = Ok out ->
  sort_copes files = Ok out /\ (2 <= length out)%nat.
Proof.
  intros H.
  assert (sort_copes files = Ok out /\
          exists first, files !! 0%nat = Some first /\
                        (1 < length first)%nat) as [Hs (first & Hf & Hl)].
  { unfold sort_copes_checked in H. unfold sort_copes.
    apply bind_Ok in H as (first & Hf & H). rewrite Hf. simpl.
    apply bind_Ok in H as (u & Ha & H). apply py_assert_Ok in Ha.
    split; [exact H|]. exists first. apply py_index_Ok in Hf.
    split; [exact Hf|]. apply Nat.ltb_lt. exact Ha. }
  split; [exact Hs|].
  apply sort_copes_Ok in Hs as (first' & Hf' & HF).
  rewrite Hf in Hf'. inversion Hf'; subst first'.
  apply Forall2_length in HF. rewrite length_seq in HF. lia.
Qed.

(** X16.  The [sort_copes] of [modelfit_workflow.py] returns only
    transposed tables of at least two lists: when it returns, the result
    has at least two lists, one for each position of the first list of
    [files], and the element at [j] of the list at [i] is the element at
    [i] of the list at [j] of [files]. *)
Theorem sort_copes_checked_transposes {A : Type} (files out : list (list A)) :
  sort_copes_checked files = Ok out ->
  (2 <= length out)%nat /\
  exists first,
    files !! 0%nat = Some first /\
    length out = length first /\
    (forall i j els,
       (i < length first)%nat -> files !! j = Some els ->
       exists col x, out !! i = Some col /\ col !! j = Some x /\
                     els !! i = Some x).
Proof.
  intros H. apply sort_copes_checked_Ok in H as [H Hl].
  split; [exact Hl|].
  apply sort_copes_Ok in H as (first & Hf & HF).
  exists first. split; [exact Hf|]. split.
  - apply Forall2_length in HF. rewrite length_seq in HF. auto.
  - intros i j els Hi Hj.
    assert (seq 0 (length first) !! i = Some i) as Hsi
      by (apply lookup_seq; split; [reflexivity|exact Hi]).
    destruct (Forall2_lookup_l _ _ _ _ _ HF Hsi) as (col & Hcol & Hc).
    destruct (Forall2_lookup_l _ _ _ _ _ Hc Hj) as (x & Hx & Hels).
    eauto.
Qed.

Lemma sort_copes_checked_transposes_witness :
  sort_copes_checked [[1; 2; 3]; [4; 5; 6]]%nat
    = Ok [[1; 4]; [2; 5]; [3; 6]]%nat /\
  sort_copes_checked [[1]; [4]]%nat = Raise (AssertionError None) /\
  (2 <= length [[1; 4]; [2; 5]; [3; 6]]%nat)%nat /\
  exists first,
    [[1; 2; 3]; [4; 5; 6]]%nat !! 0%nat = Some first /\
    length [[1; 4]; [2; 5]; [3; 6]]%nat = length first /\
    (forall i j els,
       (i < length first)%nat -> [[1; 2; 3]; [4; 5; 6]]%nat !! j = Some els ->
       exists col x, [[1; 4]; [2; 5]; [3; 6]]%nat !! i = Some col /\
                     col !! j = Some x /\ els !! i = Some x).
Proof.
  split; [reflexivity|]. split; [reflexivity|].
  apply (sort_copes_checked_transposes [[1; 2; 3]; [4; 5; 6]]%nat
           [[1; 4]; [2; 5]; [3; 6]]%nat).
  reflexivity.
Defined.

(** ** [evt_info] *)

Lemma dict_get_key (ev : dict) (name : string) :
  In name (dict_keys ev) -> exists df, dict_get ev name = Ok df.
Proof.
  induction ev as [|[k df] rest IH]; simpl; [contradiction|].
  intros [->|H].
  - rewrite String.eqb_refl. eauto.
  - destruct (String.eqb k name); eauto.
Qed.

Lemma dict_get_In (ev : dict) (name : string) (df : list cevent) :
  dict_get ev name = Ok df -> In name (dict_keys ev).
Proof.
  induction ev as [|[k df'] rest IH]; simpl; [discriminate|].
  destruct (String.eqb k name) eqn:E.
  - apply String.eqb_eq in E. auto.
  - auto.
Qed.

Lemma nonempty_names_Ok (ev : dict) (keys : list string) :
  (forall k, In k keys -> In k (dict_keys ev)) ->
  exists names,
    nonempty_names ev keys = Ok names /\
    (forall name, In name names <-> In name keys /\ has_rows ev name).
Proof.
  induction keys as [|k keys IH]; simpl; intros Hk.
  - exists []. split; [reflexivity|]. intros name. simpl. tauto.
  - destruct (dict_get_key ev k) as (df & Hdf); [apply Hk; auto|].
    destruct IH as (names & Hn & Hiff); [intros; apply Hk; auto|].
    rewrite Hdf, Hn. simpl. eexists. split; [reflexivity|].
    intros name. destruct df as [|c df]; simpl.
    + rewrite Hiff. split.
      * intros [H1 H2]. auto.
      * intros [[->|H1] H2]; [|auto].
        destruct H2 as (df' & Hdf' & Hne). rewrite Hdf in Hdf'.
        inversion Hdf'. subst df'. contradiction.
    + rewrite Hiff. split.
      * intros [->|[H1 H2]]; [|auto].
        split; [auto|]. exists (c :: df). split; [exact Hdf|discriminate].
      * intros [[->|H1] H2]; auto.
Qed.

Lemma for_each_Ok {A B : Type} (f : A -> result B) (P : A -> B -> Prop)
    (l : list A) :
  Forall (fun x => exists y, f x = Ok y /\ P x y) l ->
  exists ys, for_each f l = Ok ys /\ Forall2 P l ys.
Proof.
  induction 1 as [|x l (y & Hy & HP) _ (ys & Hys & HF)]; simpl.
  - exists []. split; [reflexivity|constructor].
  - rewrite Hy, Hys. simpl. exists (y :: ys).
    split; [reflexivity|]. constructor; assumption.
Qed.

Lemma guarded_column_Ok {B : Type} (f : cevent -> B) ev name :
  has_rows ev name -> exists y, guarded_column f ev name = Ok y /\ True.
Proof.
  intros (df & Hdf & Hne). unfold guarded_column. rewrite Hdf. simpl.
  destruct df as [|c df]; [contradiction|]. simpl. eauto.
Qed.

Lemma plain_column_Ok {B : Type} (f : cevent -> B) ev name :
  has_rows ev name ->
  exists y, plain_column f ev name = Ok y /\
            exists df, dict_get ev name = Ok df /\ df <> [] /\ y = map f df.
Proof.
  intros (df & Hdf & Hne). unfold plain_column. rewrite Hdf. simpl.
  destruct df as [|c df]; [contradiction|]. simpl.
  eexists. split; [reflexivity|]. exists (c :: df). auto.
Qed.

Lemma evt_info_run_columns (ev : dict) :
  exists b,
    evt_info_run ev = Ok b /\
    (forall name,
       In name (conditions b) <-> In name (dict_keys ev) /\ has_rows ev name) /\
    Forall2 (fun name c => exists df, dict_get ev name = Ok df /\ df <> [] /\
                                      c = map time df)
      (conditions b) (onsets b) /\
    Forall2 (fun name c => exists df, dict_get ev name = Ok df /\ df <> [] /\
                                      c = map dur df)
      (conditions b) (durations b) /\
    Forall2 (fun name c => exists df, dict_get ev name = Ok df /\ df <> [] /\
                                      c = map amplitude df)
      (conditions b) (amplitudes b).
Proof.
  destruct (nonempty_names_Ok ev (dict_keys ev)) as (names & Hn & Hiff);
    [auto|].
  assert (Forall (has_rows ev) names) as Hrows.
  { apply Forall_forall. intros name Hin.
    apply list_elem_of_In, Hiff in Hin. tauto. }
  unfold evt_info_run. rewrite Hn. simpl.
  destruct (for_each_Ok (guarded_column time ev) (fun _ _ => True) names)
    as (g1 & -> & _).
  { eapply Forall_impl; [exact Hrows|]. intros; apply guarded_column_Ok; auto. }
  destruct (for_each_Ok (guarded_column dur ev) (fun _ _ => True) names)
    as (g2 & -> & _).
  { eapply Forall_impl; [exact Hrows|]. intros; apply guarded_column_Ok; auto. }
  destruct (for_each_Ok (guarded_column amplitude ev) (fun _ _ => True) names)
    as (g3 & -> & _).
  { eapply Forall_impl; [exact Hrows|]. intros; apply guarded_column_Ok; auto. }
  simpl.
  destruct (for_each_Ok (plain_column time ev) _ names
              (Forall_impl _ _ _ Hrows (plain_column_Ok time ev)))
    as (c1 & -> & H1).
  destruct (for_each_Ok (plain_column dur ev) _ names
              (Forall_impl _ _ _ Hrows (plain_column_Ok dur ev)))
    as (c2 & -> & H2).
  destruct (for_each_Ok (plain_column amplitude ev) _ names
              (Forall_impl _ _ _ Hrows (plain_column_Ok amplitude ev)))
    as (c3 & -> & H3).
  simpl. eexists. split; [reflexivity|]. simpl. auto.
Qed.

(** X17.  [evt_info] never fails on a run: whatever the dict of the run,
    the conditions that it reports are the keys whose table has at least
    one row, and the onsets, durations and amplitudes that it reports
    for a condition are the three columns of the table of that
    condition; the column of an empty table, which does not exist, is
    never read. *)
Theorem evt_info_run_returns (ev : dict) :
  exists b,
    evt_info_run ev = Ok b /\
    (forall name,
       In name (conditions b) <-> In name (dict_keys ev) /\ has_rows ev name) /\
    Forall2 (fun name c => exists df, dict_get ev name = Ok df /\ df <> [] /\
                                      c = map time df)
      (conditions b) (onsets b) /\
    Forall2 (fun name c => exists df, dict_get ev name = Ok df /\ df <> [] /\
                                      c = map dur df)
      (conditions b) (durations b) /\
    Forall2 (fun name c => exists df, dict_get ev name = Ok df /\ df <> [] /\
                                      c = map amplitude df)
      (conditions b) (amplitudes b).
Proof. exact (evt_info_run_columns ev). Qed.

Lemma nonempty_names_filter (ev : dict) (keys : list string) :
  (forall k, In k keys -> In k (dict_keys ev)) ->
  nonempty_names ev keys =
  Ok (List.filter
        (fun k => match dict_get ev k with
                  | Ok df => Nat.ltb 0 (length df)
                  | Raise _ => false
                  end) keys).
Proof.
  induction keys as [|k keys IH]; simpl; intros Hk; [reflexivity|].
  destruct (dict_get_key ev k) as (df & Hdf); [apply Hk; auto|].
  rewrite Hdf, IH by (intros; apply Hk; auto). simpl.
  destruct (Nat.ltb 0 (length df)); reflexivity.
Qed.

Lemma dict_get_omap (out : gmap string (list cevent)) (k : string)
    (df : list cevent) (keys : list string) :
  In k keys -> out !! k = Some df ->
  dict_get (omap (fun k => pair k <$> out !! k) keys) k = Ok df.
Proof.
  intros Hin Hk. induction keys as [|k0 keys IH]; [contradiction|].
  simpl. destruct (decide (k0 = k)) as [->|Hne].
  - rewrite Hk. simpl. rewrite String.eqb_refl. reflexivity.
  - destruct Hin as [->|Hin]; [contradiction|].
    destruct (out !! k0) as [d0|]; simpl.
    + apply String.eqb_neq in Hne. rewrite Hne. apply IH. exact Hin.
    + apply IH. exact Hin.
Qed.

Lemma dict_keys_omap (out : gmap string (list cevent)) (keys : list string) :
  (forall k, In k keys -> is_Some (out !! k)) ->
  dict_keys (omap (fun k => pair k <$> out !! k) keys) = keys.
Proof.
  unfold dict_keys. induction keys as [|k keys IH]; simpl; intros Hk;
    [reflexivity|].
  destruct (Hk k) as (df & Hdf); [auto|]. rewrite Hdf. simpl.
  f_equal. apply IH. intros; apply Hk; auto.
Qed.

Lemma columns_length {B : Type} (f : cevent -> B) (ev : dict)
    (lenf : string -> nat) (keys names : list string) (cs : list (list B)) :
  (forall k, In k keys ->
     exists df, dict_get ev k = Ok df /\ length df = lenf k) ->
  (forall name, In name names -> In name keys) ->
  Forall2 (fun name c => exists df, dict_get ev name = Ok df /\ df <> [] /\
                                    c = map f df) names cs ->
  Forall2 (fun name c => length c = lenf name) names cs.
Proof.
  intros Hget Hin HF. induction HF as [|name c names cs' Hx _ IH];
    constructor.
  - destruct Hx as (df & Hdf & _ & ->).
    destruct (Hget name) as (df' & Hdf' & Hl); [apply Hin; left; reflexivity|].
    rewrite Hdf in Hdf'. inversion Hdf'; subst df'.
    rewrite length_map. exact Hl.
  - apply IH. intros n Hn. apply Hin. right. exact Hn.
Qed.

Lemma evt_info_run_on (ev : dict) (keys : list string)
    (lenf : string -> nat) :
  dict_keys ev = keys ->
  (forall k, In k keys ->
     exists df, dict_get ev k = Ok df /\ length df = lenf k) ->
  exists b,
    evt_info_run ev = Ok b /\
    conditions b = List.filter (fun k => Nat.ltb 0 (lenf k)) keys /\
    Forall2 (fun name c => length c = lenf name) (conditions b) (onsets b) /\
    Forall2 (fun name c => length c = lenf name) (conditions b) (durations b) /\
    Forall2 (fun name c => length c = lenf name) (conditions b) (amplitudes b).
Proof.
  intros Hkeys Hget.
  destruct (evt_info_run_columns ev) as (b & Hb & Hiff & H1 & H2 & H3).
  exists b. split; [exact Hb|].
  assert (conditions b = List.filter (fun k => Nat.ltb 0 (lenf k)) keys)
    as Hcond.
  { unfold evt_info_run in Hb.
    rewrite nonempty_names_filter in Hb by auto.
    apply bind_Ok in Hb as (names & Hn & Hb). inversion Hn; subst names.
    exec. cbn [conditions]. rewrite Hkeys.
    apply filter_ext_in. intros k Hk.
    destruct (Hget k Hk) as (df & Hdf & Hl). rewrite Hdf, Hl. reflexivity. }
  split; [exact Hcond|].
  assert (forall name, In name (conditions b) -> In name keys) as Hin.
  { intros name Hn. rewrite Hcond in Hn. apply filter_In in Hn. tauto. }
  repeat split; eapply columns_length; eassumption.
Qed.

(** X18.  [evt_info] on what [process_events] returns: it never fails;
    the conditions that it reports are the condition names whose bucket
    has at least one event, in the order of the dict literal, and for
    each of them the onsets, the durations and the amplitudes have one
    entry for each event of the bucket. *)
Theorem evt_info_of_output (event_log : list row) (TR : Q) (in_nvols : Z)
    (out : gmap string (list cevent)) (end_time_s : Q) (nvols : Z) :
  process_events event_log TR in_nvols = Ok (out, end_time_s, nvols) ->
  exists b,
    evt_info_run (dict_of out) = Ok b /\
    conditions b =
      List.filter (fun k => Nat.ltb 0 (bucket_len out k)) condition_names /\
    Forall2 (fun name c => length c = bucket_len out name)
      (conditions b) (onsets b) /\
    Forall2 (fun name c => length c = bucket_len out name)
      (conditions b) (durations b) /\
    Forall2 (fun name c => length c = bucket_len out name)
      (conditions b) (amplitudes b).
Proof.
  intros H.
  apply process_events_Ok in H
    as (s & st & final & _ & Hscan & _ & _ & _ & _ & ->).
  set (out := (map to_cevent) <$> split_ev st).
  assert (forall k, In k condition_names -> is_Some (out !! k)) as Hall.
  { intros k Hk. apply (elem_of_dom (D := gset string)). unfold out.
    rewrite dom_fmap_L, (scan_init_dom _ _ Hscan).
    apply elem_of_list_to_set, list_elem_of_In. exact Hk. }
  apply evt_info_run_on.
  - apply dict_keys_omap. exact Hall.
  - intros k Hk. destruct (Hall k Hk) as (df & Hdf). exists df. split.
    + apply dict_get_omap; assumption.
    + unfold bucket_len. rewrite Hdf. reflexivity.
Qed.

Lemma evt_info_of_output_witness :
  exists out end_time_s nvols b,
    process_events scenario_B (25 # 10) 420 = Ok (out, end_time_s, nvols) /\
    evt_info_run (dict_of out) = Ok b /\
    conditions b =
      List.filter (fun k => Nat.ltb 0 (bucket_len out k)) condition_names /\
    Forall2 (fun name c => length c = bucket_len out name)
      (conditions b) (onsets b) /\
    Forall2 (fun name c => length c = bucket_len out name)
      (conditions b) (durations b) /\
    Forall2 (fun name c => length c = bucket_len out name)
      (conditions b) (amplitudes b).
Proof.
  destruct (returns_Ok (process_events scenario_B (25 # 10) 420))
    as ([[out e] v] & E); [vm_compute; reflexivity|].
  destruct (evt_info_of_output scenario_B (25 # 10) 420 out e v E)
    as (b & Hb).
  exists out, e, v, b. split; [exact E|]. exact Hb.
Defined.

Example evt_info_scenario_B :
  conditions <$>
    match process_events scenario_B (25 # 10) 420 with
    | Ok (out, _, _) =>
        match evt_info_run (dict_of out) with
        | Ok b => Some b
        | Raise _ => None
        end
    | Raise _ => None
    end
  = Some ["CurveFalseHit"; "CurveNotCOR"; "PreSwitchCurves"; "ResponseCues"].
Proof. vm_compute. reflexivity. Qed.

(** ** The buckets that do not depend on the state *)

(** A trial resolution touches no bucket but those whose onsets come
    from [curve_stim_on] and 'ResponseCues'. *)
Lemma trial_resolution_keeps st ev st' k :
  trial_resolution ev st = Ok st' ->
  bucket_source k <> SrcCurve ->
  bucket_source k <> SrcCues ->
  split_ev st' !! k = split_ev st !! k.
Proof.
  unfold trial_resolution. intros H Hk1 Hk2.
  apply bind_Ok in H as (known & _ & H).
  apply bind_Ok in H as (_ & _ & H).
  apply bind_Ok in H as (_ & _ & H).
  apply bind_Ok in H as (st1 & H1 & H).
  apply bind_Ok in H as ([b st2] & H2 & H). simpl in H.
  apply classify_Ok in H2 as [Hb Hst2].
  assert (b <> k) as Nb by (intros ->; contradiction).
  assert ("PreSwitchCurves" <> k) as N1 by (intros <-; apply Hk1; reflexivity).
  assert ("CurveNotCOR" <> k) as N2 by (intros <-; apply Hk1; reflexivity).
  assert ("ResponseCues" <> k) as N3 by (intros <-; apply Hk2; reflexivity).
  exec; destruct Hst2; simplify_eq; simpl.
  all: rewrite !lookup_insert_ne by assumption; reflexivity.
Qed.

Lemma process_row_reward st ev st' :
  process_row st ev = Ok st' ->
  split_ev st' !! "Reward" =
  (fun l => l ++ reward_events ev) <$> split_ev st !! "Reward".
Proof.
  rewrite process_row_eq. unfold reward_events, is_payload_reward,
    is_legacy_manual.
  destruct (cell_is (event ev) "Fixation") eqn:E.
  - intros H. apply cell_is_eq in E. unfold track_fixation in H.
    rewrite E in *. simpl in *.
    exec; simplify_eq; simpl; rewrite ?lookup_insert_ne by discriminate;
      destruct (split_ev st !! "Reward"); simpl; rewrite ?app_nil_r;
      reflexivity.
  - rewrite <- (track_state_split_ev st ev).
    generalize (track_state ev st). clear st. intros st H.
    unfold dispatch in H.
    repeat match type of H with
    | (if ?b then _ else _) = Ok _ => destruct b eqn:?
    end.
    7: { rewrite (trial_resolution_keeps _ _ _ "Reward" H)
           by discriminate.
         cells. destruct (split_ev st !! "Reward"); simpl;
           rewrite ?app_nil_r; reflexivity. }
    all: exec; simplify_eq; simpl.
    all: repeat match goal with
         | Ho : _ || _ = true |- _ => apply orb_true_iff in Ho as [Ho|Ho]
         end.
    all: cells.
    all: repeat match goal with
         | Ef : ?b = false |- context [?b] => rewrite Ef
         end.
    all: rewrite ?lookup_insert_eq; rewrite ?lookup_insert_ne by discriminate.
    all: try (match goal with
              | Hl : _ !! "Reward" = Some _ |- _ => rewrite Hl
              end; reflexivity).
    all: try (destruct (split_ev st !! "Reward"); simpl; rewrite ?app_nil_r;
              reflexivity).
Qed.

Lemma scan_reward events : forall st st',
  scan st events = Ok st' ->
  split_ev st' !! "Reward" =
  (fun l => l ++ flat_map reward_events events) <$> split_ev st !! "Reward".
Proof.
  induction events as [|ev rest IH]; simpl; intros st st' H.
  - inversion H; subst.
    destruct (split_ev st' !! "Reward"); simpl; rewrite ?app_nil_r;
      reflexivity.
  - apply bind_Ok in H as (st1 & H1 & H).
    rewrite (IH _ _ H), (process_row_reward _ _ _ H1).
    destruct (split_ev st !! "Reward"); simpl; [|reflexivity].
    rewrite <- app_assoc. reflexivity.
Qed.

(** X19.  The bucket 'Reward' is the list of the reward rows of the log
    (events 'ResponseReward', 'TaskReward', 'ManualReward', and 'Reward'
    with the info 'Manual'), in their order: when [process_events]
    returns, it holds for each of these rows, and for no other row, one
    event at the normalized time of the row, of duration 0, whose
    amplitude is the info of the row, or 0.04 for ('Reward',
    'Manual'). *)
Theorem reward_bucket (event_log : list row) (TR : Q) (in_nvols : Z)
    (out : gmap string (list cevent)) (end_time_s : Q) (nvols : Z) :
  process_events event_log TR in_nvols = Ok (out, end_time_s, nvols) ->
  exists start_time_s,
    start_time event_log = Ok start_time_s /\
    out !! "Reward" =
      Some (map to_cevent
              (flat_map reward_events
                 (map (normalize start_time_s) event_log))).
Proof.
  intros H.
  apply process_events_Ok in H
    as (s & st & final & Hs & Hscan & _ & _ & _ & _ & ->).
  exists s. split; [exact Hs|].
  rewrite lookup_fmap, (scan_reward _ _ _ Hscan).
  destruct (lookup_condition init_state "Reward" init_dom) as (l & Hl);
    [simpl; tauto|].
  rewrite Hl. apply init_lookup in Hl. subst l. reflexivity.
Qed.

Lemma reward_bucket_witness :
  exists out end_time_s nvols,
    process_events log_rewards (25 # 10) 420 = Ok (out, end_time_s, nvols) /\
    exists start_time_s,
      start_time log_rewards = Ok start_time_s /\
      out !! "Reward" =
        Some (map to_cevent
                (flat_map reward_events
                   (map (normalize start_time_s) log_rewards))).
Proof.
  destruct (returns_Ok (process_events log_rewards (25 # 10) 420))
    as ([[out e] v] & E); [vm_compute; reflexivity|].
  exists out, e, v. split; [exact E|].
  apply (reward_bucket log_rewards (25 # 10) 420 out e v). exact E.
Defined.

Lemma hand_key_ne (c : cell) (hand : string) :
  cell_is c hand = false -> hand <> "nan" ->
  "Hand" +:+ str_of_cell c <> "Hand" +:+ hand.
Proof.
  intros Hf Hn Heq. destruct c as [|x]; simpl in *.
  - injection Heq as Hc. apply Hn. symmetry. exact Hc.
  - assert (x = hand) as -> by (injection Heq as Hc; exact Hc).
    rewrite String.eqb_refl in Hf. discriminate.
Qed.

Lemma process_row_hand st ev st' hand :
  hand = "Left" \/ hand = "Right" ->
  process_row st ev = Ok st' ->
  split_ev st' !! ("Hand" +:+ hand) =
  (fun l => l ++ hand_events hand ev) <$> split_ev st !! ("Hand" +:+ hand).
Proof.
  intros Hh. rewrite process_row_eq.
  unfold hand_events, is_response_initiate.
  assert (bucket_source ("Hand" +:+ hand) = SrcHand) as Hsrc
    by apply bucket_source_Hand.
  assert (hand <> "nan") as Hnan by (destruct Hh as [-> | ->]; discriminate).
  assert (forall k, bucket_source k <> SrcHand -> k <> "Hand" +:+ hand)
    as Hne by (intros k Hk ->; contradiction).
  destruct (cell_is (event ev) "Fixation") eqn:E.
  - intros H. apply cell_is_eq in E. unfold track_fixation in H.
    rewrite E in *. simpl in *.
    exec; simplify_eq; simpl;
      rewrite ?(lookup_insert_ne _ "Fixating") by (apply Hne; discriminate);
      destruct (split_ev st !! ("Hand" +:+ hand)); simpl;
      rewrite ?app_nil_r; reflexivity.
  - rewrite <- (track_state_split_ev st ev).
    generalize (track_state ev st). clear st. intros st H.
    unfold dispatch in H.
    repeat match type of H with
    | (if ?b then _ else _) = Ok _ => destruct b eqn:?
    end.
    7: { rewrite (trial_resolution_keeps _ _ _ ("Hand" +:+ hand) H)
           by (rewrite Hsrc; discriminate).
         cells. destruct (split_ev st !! ("Hand" +:+ hand)); simpl;
           rewrite ?app_nil_r; reflexivity. }
    8: { exec; simplify_eq.
         cbn [split_ev set_split_ev andb].
         destruct (cell_is (info ev) hand) eqn:Ei.
         - apply cell_is_eq in Ei. rewrite Ei in *. cbn [str_of_cell] in *.
           rewrite lookup_insert_eq, Hl. reflexivity.
         - rewrite lookup_insert_ne by (apply hand_key_ne; assumption).
           destruct (split_ev st !! ("Hand" +:+ hand)); simpl;
             rewrite ?app_nil_r; reflexivity. }
    all: exec; simplify_eq; cbn [split_ev set_split_ev set_curve_target
           set_curve_stim_on set_curve_response set_curve_switched
           set_fixation_stim_on set_response_cues_on
           set_has_ManualRewardField].
    all: repeat match goal with
         | Ho : _ || _ = true |- _ => apply orb_true_iff in Ho as [Ho|Ho]
         end.
    all: cells.
    all: rewrite ?(lookup_insert_ne _ "FixationTask")
           by (apply Hne; discriminate).
    all: rewrite ?(lookup_insert_ne _ "Reward") by (apply Hne; discriminate).
    all: destruct (split_ev st !! ("Hand" +:+ hand)); simpl;
           rewrite ?app_nil_r; reflexivity.
Qed.

Lemma scan_hand events hand : forall st st',
  hand = "Left" \/ hand = "Right" ->
  scan st events = Ok st' ->
  split_ev st' !! ("Hand" +:+ hand) =
  (fun l => l ++ flat_map (hand_events hand) events) <$>
    split_ev st !! ("Hand" +:+ hand).
Proof.
  induction events as [|ev rest IH]; cbn [scan flat_map]; intros st st' Hh H.
  - inversion H; subst.
    destruct (split_ev st' !! ("Hand" +:+ hand)); simpl; rewrite ?app_nil_r;
      reflexivity.
  - apply bind_Ok in H as (st1 & H1 & H).
    rewrite (IH _ _ Hh H), (process_row_hand _ _ _ hand Hh H1).
    destruct (split_ev st !! ("Hand" +:+ hand)); simpl; [|reflexivity].
    rewrite <- app_assoc. reflexivity.
Qed.

(** X20.  The buckets 'HandLeft' and 'HandRight' are the lists of the
    'Response_Initiate' rows of the log with the info 'Left' and 'Right',
    in their order: when [process_events] returns, each of them holds
    for each of its rows, and for no other row, one event at the
    normalized time of the row, of duration 0 and amplitude 1. *)
Theorem hand_buckets (event_log : list row) (TR : Q) (in_nvols : Z)
    (out : gmap string (list cevent)) (end_time_s : Q) (nvols : Z)
    (hand : string) :
  hand = "Left" \/ hand = "Right" ->
  process_events event_log TR in_nvols = Ok (out, end_time_s, nvols) ->
  exists start_time_s,
    start_time event_log = Ok start_time_s /\
    out !! ("Hand" +:+ hand) =
      Some (map to_cevent
              (flat_map (hand_events hand)
                 (map (normalize start_time_s) event_log))).
Proof.
  intros Hh H.
  apply process_events_Ok in H
    as (s & st & final & Hs & Hscan & _ & _ & _ & _ & ->).
  exists s. split; [exact Hs|].
  rewrite lookup_fmap, (scan_hand _ hand _ _ Hh Hscan).
  destruct (lookup_condition init_state ("Hand" +:+ hand) init_dom)
    as (l & Hl).
  { destruct Hh as [-> | ->]; simpl; tauto. }
  rewrite Hl. apply init_lookup in Hl. subst l. reflexivity.
Qed.

Lemma hand_buckets_witness :
  exists out end_time_s nvols,
    ("Left" = "Left" \/ "Left" = "Right") /\
    process_events log_hand_left (25 # 10) 420 = Ok (out, end_time_s, nvols) /\
    exists start_time_s,
      start_time log_hand_left = Ok start_time_s /\
      out !! ("Hand" +:+ "Left") =
        Some (map to_cevent
                (flat_map (hand_events "Left")
                   (map (normalize start_time_s) log_hand_left))).
Proof.
  destruct (returns_Ok (process_events log_hand_left (25 # 10) 420))
    as ([[out e] v] & E); [vm_compute; reflexivity|].
  exists out, e, v. split; [left; reflexivity|]. split; [exact E|].
  apply (hand_buckets log_hand_left (25 # 10) 420 out e v "Left");
    [left; reflexivity | exact E].
Defined.

(** ** Fixation intervals *)

Lemma process_row_fixating st ev st' :
  process_row st ev = Ok st' ->
  began_fixation st' =
    (if cell_is (event ev) "Fixation" then
       if cell_is (info ev) "Out" then None else Some (time_s ev)
     else began_fixation st) /\
  split_ev st' !! "Fixating" =
    (fun l =>
       l ++ (if cell_is (event ev) "Fixation" && cell_is (info ev) "Out" then
               match began_fixation st with
               | Some b => [Event.mk (Some b) (time_s ev - b) 1 (AmpNum 1)]
               | None => []
               end
             else [])) <$> split_ev st !! "Fixating".
Proof.
  rewrite process_row_eq.
  destruct (cell_is (event ev) "Fixation") eqn:E.
  - intros H. unfold track_fixation in H. rewrite E in H.
    exec; simplify_eq; simpl.
    + split; [reflexivity|]. rewrite lookup_insert_eq, Hl. reflexivity.
    + split; [reflexivity|].
      destruct (split_ev st !! "Fixating"); simpl; rewrite ?app_nil_r;
        reflexivity.
    + split; [reflexivity|].
      destruct (split_ev st !! "Fixating"); simpl; rewrite ?app_nil_r;
        reflexivity.
  - simpl. rewrite <- (track_state_split_ev st ev).
    replace (began_fixation st) with (began_fixation (track_state ev st))
      by (rewrite track_state_eq; reflexivity).
    generalize (track_state ev st). clear st. intros st H.
    unfold dispatch in H.
    repeat match type of H with
    | (if ?b then _ else _) = Ok _ => destruct b eqn:?
    end.
    7: { rewrite (trial_resolution_keeps _ _ _ "Fixating" H) by discriminate.
         apply trial_resolution_shape in H as (m & lc & ->). simpl.
         split; [reflexivity|].
         destruct (split_ev st !! "Fixating"); simpl; rewrite ?app_nil_r;
           reflexivity. }
    all: exec; simplify_eq; simpl.
    all: split; [reflexivity|].
    all: rewrite ?lookup_insert_ne by discriminate.
    all: destruct (split_ev st !! "Fixating"); simpl; rewrite ?app_nil_r;
           reflexivity.
Qed.

Lemma scan_fixating events : forall st st',
  scan st events = Ok st' ->
  split_ev st' !! "Fixating" =
  (fun l => l ++ fixating_events (began_fixation st) events) <$>
    split_ev st !! "Fixating".
Proof.
  induction events as [|ev rest IH]; cbn [scan fixating_events];
    intros st st' H.
  - inversion H; subst.
    destruct (split_ev st' !! "Fixating"); simpl; rewrite ?app_nil_r;
      reflexivity.
  - apply bind_Ok in H as (st1 & H1 & H).
    destruct (process_row_fixating _ _ _ H1) as (Hb & Hl).
    rewrite (IH _ _ H), Hl, Hb.
    destruct (split_ev st !! "Fixating") as [l|]; simpl; [|reflexivity].
    destruct (cell_is (event ev) "Fixation"); simpl;
      [|rewrite app_nil_r; reflexivity].
    destruct (cell_is (info ev) "Out"); simpl;
      [|rewrite app_nil_r; reflexivity].
    destruct (began_fixation st); simpl; rewrite <- ?app_assoc;
      rewrite ?app_nil_r; reflexivity.
Qed.

(** X21.  The bucket 'Fixating' depends on the fixation markers only:
    when [process_events] returns, it holds one event for each 'Out'
    marker that follows an 'In' marker with no 'Out' marker between them,
    from the normalized time of the last 'In' marker before the 'Out' to
    the normalized time of the 'Out'; an 'Out' marker with no fixation
    under way gives no event, and no other row changes the bucket or the
    interval under way. *)
Theorem fixating_bucket (event_log : list row) (TR : Q) (in_nvols : Z)
    (out : gmap string (list cevent)) (end_time_s : Q) (nvols : Z) :
  process_events event_log TR in_nvols = Ok (out, end_time_s, nvols) ->
  exists start_time_s,
    start_time event_log = Ok start_time_s /\
    out !! "Fixating" =
      Some (map to_cevent
              (fixating_events None (map (normalize start_time_s) event_log))).
Proof.
  intros H.
  apply process_events_Ok in H
    as (s & st & final & Hs & Hscan & _ & _ & _ & _ & ->).
  exists s. split; [exact Hs|].
  rewrite lookup_fmap, (scan_fixating _ _ _ Hscan).
  destruct (lookup_condition init_state "Fixating" init_dom) as (l & Hl);
    [simpl; tauto|].
  rewrite Hl. apply init_lookup in Hl. subst l. reflexivity.
Qed.

Lemma fixating_bucket_witness :
  exists out end_time_s nvols,
    process_events log_fixations (25 # 10) 420 = Ok (out, end_time_s, nvols) /\
    exists start_time_s,
      start_time log_fixations = Ok start_time_s /\
      out !! "Fixating" =
        Some (map to_cevent
                (fixating_events None
                   (map (normalize start_time_s) log_fixations))).
Proof.
  destruct (returns_Ok (process_events log_fixations (25 # 10) 420))
    as ([[out e] v] & E); [vm_compute; reflexivity|].
  exists out, e, v. split; [exact E|].
  apply (fixating_bucket log_fixations (25 # 10) 420 out e v). exact E.
Defined.

Example fixations_example :
  out_lookup (process_events log_fixations (25 # 10) 420) "Fixating"
  = Some [ mkCevent (Some (4 - 1)%Q) (7 - 1 - (4 - 1))%Q (AmpNum 1) ].
Proof. vm_compute. reflexivity. Qed.
